(** * Steel connection limit states: bolts, connected elements, fillet welds

    A shallow embedding of [Steel/bolt.py], [Steel/connected_element.py] and
    [Steel/weld.py], followed by the properties the specification states
    about them.

    Numbers.  The source computes with Python floats.  Here a number is an
    exact rational ([Q]): a decimal literal denotes the rational it spells,
    the four operations are exact, and comparisons are the order of [Q].
    Rounding is therefore outside the model; equalities between computed
    magnitudes are stated with [==].  The two irrational constants of the
    source, [math.pi] and [math.sqrt(2)], are the rationals the Python
    library provides for them (the nearest binary64 values).

    Quantities.  An argument of the source that is a [pint.Quantity] is a
    magnitude tagged with a unit.  Each function first normalises it with
    [.to] to inch or ksi; from there on the model carries the magnitude in
    that canonical unit, so that [0.125 * ureg.inch] is the number [0.125]
    and a returned strength is a magnitude in ksi*inch^2 (kip).

    Exceptions.  A Python function either returns or raises; the model
    returns [Ok v] or [Raise e], and sequencing stops at the first raise,
    in the order of the source lines. *)

From Stdlib Require Import QArith Qminmax Lqa ZArith String Bool Lia.

Local Open Scope Q_scope.
Local Open Scope string_scope.

(** ** The Python side: exceptions, sequencing, [min], division *)

Module Py.

Inductive exception : Type :=
| ValueError (msg : string)
| UnboundLocalError (name : string)
| ZeroDivisionError
| DimensionalityError.

Inductive result (A : Type) : Type :=
| Ok (a : A)
| Raise (e : exception).

Arguments Ok {A} a.
Arguments Raise {A} e.

Definition bind {A B : Type} (r : result A) (k : A -> result B) : result B :=
  match r with
  | Ok a => k a
  | Raise e => Raise e
  end.

Definition Qltb (x y : Q) : bool := negb (Qle_bool y x).

(** [min(a, b)]: the first argument unless the second is strictly smaller. *)
Definition min (a b : Q) : Q := if Qltb b a then b else a.

(** [a / b] on floats raises on a zero divisor. *)
Definition truediv (a b : Q) : result Q :=
  if Qeq_bool b 0 then Raise ZeroDivisionError else Ok (a / b).

(** Reading a local variable that no executed branch has assigned. *)
Definition local {A : Type} (name : string) (v : option A) : result A :=
  match v with
  | Some a => Ok a
  | None => Raise (UnboundLocalError name)
  end.

(** [math.pi] and [math.sqrt(2)], as the binary64 values of the library. *)
Definition math_pi : Q := 884279719003555 # 281474976710656.
Definition math_sqrt2 : Q := 6369051672525773 # 4503599627370496.

End Py.

Export Py.

Declare Scope py_scope.
Delimit Scope py_scope with py.
Notation "x <- e ;; k" := (bind e (fun x => k))
  (at level 61, e at next level, right associativity) : py_scope.
Notation "' p <- e ;; k" := (bind e (fun x => match x with p => k end))
  (at level 61, p pattern, e at next level, right associativity) : py_scope.
Local Open Scope py_scope.

(** ** The part of [pint] the source relies on *)

Module Pint.

(** Exponents of length, mass and time. *)
Record Dimensionality : Type := mkDim
  { length_exp : Z; mass_exp : Z; time_exp : Z }.

(** A unit: its dimensionality and its size in SI base units. *)
Record Unit : Type := mkUnit
  { factor : Q; dimensionality : Dimensionality }.

Record Quantity : Type := mkQuantity
  { magnitude : Q; units : Unit }.

Definition dim_length : Dimensionality := mkDim 1 0 0.
Definition dim_pressure : Dimensionality := mkDim (-1) 1 (-2).
Definition dim_force : Dimensionality := mkDim 1 1 (-2).

Definition meter : Unit := mkUnit 1 dim_length.
Definition millimeter : Unit := mkUnit 0.001 dim_length.
Definition inch : Unit := mkUnit 0.0254 dim_length.
Definition foot : Unit := mkUnit 0.3048 dim_length.
Definition kip : Unit := mkUnit 4448.2216152605 dim_force.
Definition pascal : Unit := mkUnit 1 dim_pressure.
Definition megapascal : Unit := mkUnit 1000000 dim_pressure.
Definition ksi : Unit := mkUnit (4448.2216152605 / (0.0254 * 0.0254)) dim_pressure.
Definition psi : Unit := mkUnit (4.4482216152605 / (0.0254 * 0.0254)) dim_pressure.

Definition dim_eqb (d1 d2 : Dimensionality) : bool :=
  (length_exp d1 =? length_exp d2)%Z
  && (mass_exp d1 =? mass_exp d2)%Z
  && (time_exp d1 =? time_exp d2)%Z.

Definition compatible (q : Quantity) (u : Unit) : bool :=
  dim_eqb (dimensionality (units q)) (dimensionality u).

(** The magnitude [q] has when it is expressed in [u]. *)
Definition magnitude_in (u : Unit) (q : Quantity) : Q :=
  magnitude q * (factor (units q) / factor u).

(** [q.to(u)]: the magnitude in [u], or a [DimensionalityError]. *)
Definition to (q : Quantity) (u : Unit) : result Q :=
  if compatible q u then Ok (magnitude_in u q) else Raise DimensionalityError.

Definition inches (x : Q) : Quantity := mkQuantity x inch.
Definition millimeters (x : Q) : Quantity := mkQuantity x millimeter.
Definition ksis (x : Q) : Quantity := mkQuantity x ksi.
Definition megapascals (x : Q) : Quantity := mkQuantity x megapascal.

End Pint.

Export Pint.

Definition invalid_design_method : exception :=
  ValueError "Invalid design method. Use 'ASD' or 'LRFD'.".

(** ** [Steel/bolt.py] *)

Module Bolt.

Definition nominal_fastener_strength (f_u : Quantity) : result (Q * Q) :=
  f_u <- to f_u ksi ;;
  let f_nv := 0.45 * f_u in
  let f_nt := 0.75 * f_u in
  Ok (f_nv, f_nt).

Definition shear_strength_bolts (design_method : string)
    (bolt_dia f_u : Quantity) : result Q :=
  '(f_nv, _) <- nominal_fastener_strength f_u ;;
  bolt_dia <- to bolt_dia inch ;;
  let r_n := f_nv * (math_pi / 4) * (bolt_dia ^ 2) in
  if design_method =? "ASD" then
    let fos := 2.00 in
    Ok (r_n / fos)
  else if design_method =? "LRFD" then
    let str_reduction := 0.75 in
    Ok (str_reduction * r_n)
  else Raise invalid_design_method.

Definition bearing_strength_bolts (design_method : string)
    (bolt_dia part1_t part1_ult part2_t part2_ult : Quantity)
    : result (Q * Q) :=
  bolt_dia <- to bolt_dia inch ;;
  part1_t <- to part1_t inch ;;
  part2_t <- to part2_t inch ;;
  part1_ult <- to part1_ult ksi ;;
  part2_ult <- to part2_ult ksi ;;
  let r_n1 := 2.4 * bolt_dia * part1_t * part1_ult in
  let r_n2 := 2.4 * bolt_dia * part2_t * part2_ult in
  if design_method =? "ASD" then
    let fos := 2.00 in
    Ok (r_n1 / fos, r_n2 / fos)
  else if design_method =? "LRFD" then
    let str_reduction := 0.75 in
    Ok (str_reduction * r_n1, str_reduction * r_n2)
  else Raise invalid_design_method.

Definition tearout_strength_bolts (design_method : string)
    (bolt_dia part1_edge_dist part2_edge_dist
     part1_t part1_ult part2_t part2_ult : Quantity) : result (Q * Q) :=
  bolt_dia <- to bolt_dia inch ;;
  part1_edge_dist <- to part1_edge_dist inch ;;
  part2_edge_dist <- to part2_edge_dist inch ;;
  part1_t <- to part1_t inch ;;
  part2_t <- to part2_t inch ;;
  part1_ult <- to part1_ult ksi ;;
  part2_ult <- to part2_ult ksi ;;
  let net_dist_1 := part1_edge_dist - ((bolt_dia + 0.125) / 2) in
  let net_dist_2 := part2_edge_dist - ((bolt_dia + 0.125) / 2) in
  let r_n1 := 1.2 * net_dist_1 * part1_t * part1_ult in
  let r_n2 := 1.2 * net_dist_2 * part2_t * part2_ult in
  if design_method =? "ASD" then
    let fos := 2.00 in
    Ok (r_n1 / fos, r_n2 / fos)
  else if design_method =? "LRFD" then
    let str_reduction := 0.75 in
    Ok (str_reduction * r_n1, str_reduction * r_n2)
  else Raise invalid_design_method.

Definition tensile_strength_bolts (design_method : string)
    (bolt_dia f_u : Quantity) : result Q :=
  '(_, f_nt) <- nominal_fastener_strength f_u ;;
  bolt_dia <- to bolt_dia inch ;;
  let r_n := f_nt * (math_pi / 4) * (bolt_dia ^ 2) in
  if design_method =? "ASD" then
    let fos := 2.00 in
    Ok (r_n / fos)
  else if design_method =? "LRFD" then
    let str_reduction := 0.75 in
    Ok (str_reduction * r_n)
  else Raise invalid_design_method.

End Bolt.

Export Bolt.

(** ** [Steel/connected_element.py] *)

Module ConnectedElement.

Definition connected_elem_shear_yield_str (design_method : string)
    (part1_t part1_len part1_yield part2_t part2_len part2_yield : Quantity)
    : result (Q * Q) :=
  part1_t <- to part1_t inch ;;
  part1_len <- to part1_len inch ;;
  part1_yield <- to part1_yield ksi ;;
  part2_t <- to part2_t inch ;;
  part2_len <- to part2_len inch ;;
  part2_yield <- to part2_yield ksi ;;
  let r_n1 := 0.60 * part1_yield * (part1_t * part1_len) in
  let r_n2 := 0.60 * part2_yield * (part2_t * part2_len) in
  if design_method =? "ASD" then
    let fos := 1.50 in
    Ok (r_n1 / fos, r_n2 / fos)
  else if design_method =? "LRFD" then
    let str_reduction := 1.00 in
    Ok (str_reduction * r_n1, str_reduction * r_n2)
  else Raise invalid_design_method.

Definition connected_elem_shear_rupture_str (design_method : string)
    (bolt_dia : Quantity) (bolt_count : Z)
    (part1_t part1_len part1_ult part2_t part2_len part2_ult : Quantity)
    : result (Q * Q) :=
  bolt_dia <- to bolt_dia inch ;;
  part1_t <- to part1_t inch ;;
  part1_len <- to part1_len inch ;;
  part1_ult <- to part1_ult ksi ;;
  part2_t <- to part2_t inch ;;
  part2_len <- to part2_len inch ;;
  part2_ult <- to part2_ult ksi ;;
  let net_width_1 := part1_len - (bolt_dia + 0.063) * inject_Z bolt_count in
  let net_width_2 := part2_len - (bolt_dia + 0.063) * inject_Z bolt_count in
  let a_nv1 := part1_t * net_width_1 in
  let a_nv2 := part2_t * net_width_2 in
  let r_n1 := 0.60 * part1_ult * a_nv1 in
  let r_n2 := 0.60 * part2_ult * a_nv2 in
  if design_method =? "ASD" then
    let fos := 2.00 in
    Ok (r_n1 / fos, r_n2 / fos)
  else if design_method =? "LRFD" then
    let str_reduction := 0.75 in
    Ok (str_reduction * r_n1, str_reduction * r_n2)
  else Raise invalid_design_method.

Definition connected_elem_tensile_yield_str (design_method : string)
    (part1_t part1_len part1_yield part2_t part2_len part2_yield : Quantity)
    : result (Q * Q) :=
  part1_t <- to part1_t inch ;;
  part1_len <- to part1_len inch ;;
  part1_yield <- to part1_yield ksi ;;
  part2_t <- to part2_t inch ;;
  part2_len <- to part2_len inch ;;
  part2_yield <- to part2_yield ksi ;;
  let r_n1 := part1_yield * (part1_t * part1_len) in
  let r_n2 := part2_yield * (part2_t * part2_len) in
  if design_method =? "ASD" then
    let fos := 1.67 in
    Ok (r_n1 / fos, r_n2 / fos)
  else if design_method =? "LRFD" then
    let str_reduction := 0.90 in
    Ok (str_reduction * r_n1, str_reduction * r_n2)
  else Raise invalid_design_method.

Definition connected_elem_tensile_rupture_str (design_method : string)
    (bolt_dia : Quantity) (bolt_count : Z) (shear_lag : Q)
    (part1_t part1_len part1_ult part2_t part2_len part2_ult : Quantity)
    : result (Q * Q) :=
  bolt_dia <- to bolt_dia inch ;;
  part1_t <- to part1_t inch ;;
  part1_len <- to part1_len inch ;;
  part1_ult <- to part1_ult ksi ;;
  part2_t <- to part2_t inch ;;
  part2_len <- to part2_len inch ;;
  part2_ult <- to part2_ult ksi ;;
  let net_width_1 := part1_len - (bolt_dia + 0.063) * inject_Z bolt_count in
  let net_width_2 := part2_len - (bolt_dia + 0.063) * inject_Z bolt_count in
  let a_nv1 := part1_t * net_width_1 in
  let a_nv2 := part2_t * net_width_2 in
  let r_n1 := part1_ult * a_nv1 * shear_lag in
  let r_n2 := part2_ult * a_nv2 * shear_lag in
  if design_method =? "ASD" then
    let fos := 2.00 in
    Ok (r_n1 / fos, r_n2 / fos)
  else if design_method =? "LRFD" then
    let str_reduction := 0.75 in
    Ok (str_reduction * r_n1, str_reduction * r_n2)
  else Raise invalid_design_method.

End ConnectedElement.

Export ConnectedElement.

(** ** [Steel/weld.py] *)

Module Weld.

(** The function returns a bare number; when no branch is taken Python
    returns [None], which is [Ok None] here. *)
Definition min_weld_size (part1_t part2_t : Quantity) : result (option Q) :=
  part1_t <- to part1_t inch ;;
  part2_t <- to part2_t inch ;;
  let t_min := min part1_t part2_t in
  if Qltb t_min 0.25 then Ok (Some 0.1250)
  else if Qle_bool 0.25 t_min && Qltb t_min 0.5 then Ok (Some 0.1875)
  else if Qle_bool 0.5 t_min && Qltb t_min 0.75 then Ok (Some 0.2500)
  else if Qle_bool 0.75 t_min then Ok (Some 0.3125)
  else Ok None.

Definition weld_material_strength (design_method : string)
    (weld_size : Q) (weld_length : Quantity) (weld_sides : Z) : result Q :=
  weld_length <- to weld_length inch ;;
  let r_n := 0.60 * 70 * (math_sqrt2 / 2) * (weld_size / 16)
             * weld_length * inject_Z weld_sides in
  if design_method =? "ASD" then
    let fos := 2.00 in
    Ok (r_n / fos)
  else if design_method =? "LRFD" then
    let str_reduction := 0.75 in
    Ok (str_reduction * r_n)
  else Raise invalid_design_method.

(** [t1_min] and [t2_min] are assigned only when [weld_sides] is 1 or 2;
    the pair of locals is [None] otherwise and reading [t1_min] raises.
    After [.to(ureg.inch)] the length is passed on to
    [weld_material_strength] as a quantity in inches. *)
Definition weld_rupture_strength (design_method : string)
    (weld_size : Q) (weld_length : Quantity) (weld_sides : Z)
    (part1_t part1_ult part2_t part2_ult : Quantity) : result Q :=
  weld_length <- to weld_length inch ;;
  part1_t <- to part1_t inch ;;
  part2_t <- to part2_t inch ;;
  part1_ult <- to part1_ult ksi ;;
  part2_ult <- to part2_ult ksi ;;
  let throat_area := 0.707 * (weld_size / 16) in
  let weld_strength_per_length := 0.60 * 70 * throat_area in
  t_min <-
    (if (weld_sides =? 1)%Z then
       t1_min <- truediv weld_strength_per_length (0.6 * part1_ult) ;;
       t2_min <- truediv weld_strength_per_length (0.6 * part2_ult) ;;
       Ok (Some (t1_min, t2_min))
     else if (weld_sides =? 2)%Z then
       t1_min <- truediv (2 * weld_strength_per_length) (0.6 * part1_ult) ;;
       t2_min <- truediv (2 * weld_strength_per_length) (0.6 * part2_ult) ;;
       Ok (Some (t1_min, t2_min))
     else Ok None) ;;
  t1_min <- local "t1_min" (option_map fst t_min) ;;
  reduction_1 <- truediv part1_t t1_min ;;
  t2_min <- local "t2_min" (option_map snd t_min) ;;
  reduction_2 <- truediv part2_t t2_min ;;
  weld_mat_strength <-
    weld_material_strength design_method weld_size (inches weld_length)
                           weld_sides ;;
  if Qltb reduction_1 1 || Qltb reduction_2 1 then
    Ok (weld_mat_strength * min reduction_1 reduction_2)
  else Ok weld_mat_strength.

End Weld.

Export Weld.

(** ** The specification's tables and formulas

    Written from the specification (sections 4.1 to 4.5), independently of
    the source, over magnitudes in inch and ksi. *)

Module Spec.

Inductive LimitState : Type :=
| BoltShear
| BoltTension
| BoltBearing
| BoltTearout
| ElementShearYield
| ElementShearRupture
| ElementTensileYield
| ElementTensileRupture
| WeldMaterial.

(** The safety factor (Omega) of the table in section 4.1. *)
Definition asd_factor (ls : LimitState) : Q :=
  match ls with
  | BoltShear | BoltTension | BoltBearing | BoltTearout => 2.00
  | ElementShearYield => 1.50
  | ElementShearRupture => 2.00
  | ElementTensileYield => 1.67
  | ElementTensileRupture => 2.00
  | WeldMaterial => 2.00
  end.

(** The strength-reduction factor (phi) of the same table. *)
Definition lrfd_factor (ls : LimitState) : Q :=
  match ls with
  | BoltShear | BoltTension | BoltBearing | BoltTearout => 0.75
  | ElementShearYield => 1.00
  | ElementShearRupture => 0.75
  | ElementTensileYield => 0.90
  | ElementTensileRupture => 0.75
  | WeldMaterial => 0.75
  end.

Definition f_nv (f_u : Q) : Q := 0.45 * f_u.
Definition f_nt (f_u : Q) : Q := 0.75 * f_u.

Definition bolt_shear (dia f_u : Q) : Q := f_nv f_u * (math_pi / 4) * dia ^ 2.
Definition bolt_tension (dia f_u : Q) : Q := f_nt f_u * (math_pi / 4) * dia ^ 2.
Definition bolt_bearing (dia t f_u : Q) : Q := 2.4 * dia * t * f_u.

Definition net_dist (dia edge_dist : Q) : Q := edge_dist - (dia + 0.125) / 2.
Definition bolt_tearout (dia edge_dist t f_u : Q) : Q :=
  1.2 * net_dist dia edge_dist * t * f_u.

Definition net_width (dia : Q) (bolt_count : Z) (len : Q) : Q :=
  len - (dia + 0.063) * inject_Z bolt_count.
Definition net_area (dia : Q) (bolt_count : Z) (t len : Q) : Q :=
  t * net_width dia bolt_count len.

Definition shear_yield (t len fy : Q) : Q := 0.60 * fy * (t * len).
Definition shear_rupture (dia : Q) (bolt_count : Z) (t len fu : Q) : Q :=
  0.60 * fu * net_area dia bolt_count t len.
Definition tensile_yield (t len fy : Q) : Q := fy * (t * len).
Definition tensile_rupture (dia : Q) (bolt_count : Z) (shear_lag t len fu : Q)
    : Q :=
  fu * net_area dia bolt_count t len * shear_lag.

Definition weld_material (weld_size weld_length : Q) (weld_sides : Z) : Q :=
  0.60 * 70 * (math_sqrt2 / 2) * (weld_size / 16) * weld_length
  * inject_Z weld_sides.

(** Base-metal thickness that matches the weld, and the reduction. *)
Definition required_min_t (weld_size : Q) (weld_sides : Z) (fu : Q) : Q :=
  inject_Z weld_sides * (0.60 * 70 * (0.707 * (weld_size / 16))) / (0.6 * fu).
Definition reduction (weld_size : Q) (weld_sides : Z) (t fu : Q) : Q :=
  t / required_min_t weld_size weld_sides fu.

(** The step function of section 4.5. *)
Definition min_weld_size (t_min : Q) : Q :=
  if Qltb t_min 0.25 then 0.1250
  else if Qltb t_min 0.5 then 0.1875
  else if Qltb t_min 0.75 then 0.2500
  else 0.3125.

End Spec.

(** ** The limit-state functions as one interface

    A [Call] names one of the nine functions of the table of section 4.1
    with its arguments; [call] runs it.  A [Value] is what such a function
    returns: one strength, or one per connected part. *)

Module Api.

Inductive Call : Type :=
| ShearStrengthBolts (bolt_dia f_u : Quantity)
| TensileStrengthBolts (bolt_dia f_u : Quantity)
| BearingStrengthBolts (bolt_dia part1_t part1_ult part2_t part2_ult : Quantity)
| TearoutStrengthBolts (bolt_dia part1_edge_dist part2_edge_dist
                        part1_t part1_ult part2_t part2_ult : Quantity)
| ShearYieldStr (part1_t part1_len part1_yield
                 part2_t part2_len part2_yield : Quantity)
| ShearRuptureStr (bolt_dia : Quantity) (bolt_count : Z)
                  (part1_t part1_len part1_ult
                   part2_t part2_len part2_ult : Quantity)
| TensileYieldStr (part1_t part1_len part1_yield
                   part2_t part2_len part2_yield : Quantity)
| TensileRuptureStr (bolt_dia : Quantity) (bolt_count : Z) (shear_lag : Q)
                    (part1_t part1_len part1_ult
                     part2_t part2_len part2_ult : Quantity)
| WeldMaterialStrength (weld_size : Q) (weld_length : Quantity)
                       (weld_sides : Z).

Inductive Value : Type :=
| Single (x : Q)
| Parts (x1 x2 : Q).

Definition single (r : result Q) : result Value :=
  x <- r ;; Ok (Single x).

Definition parts (r : result (Q * Q)) : result Value :=
  '(x1, x2) <- r ;; Ok (Parts x1 x2).

Definition call (design_method : string) (c : Call) : result Value :=
  match c with
  | ShearStrengthBolts d fu => single (shear_strength_bolts design_method d fu)
  | TensileStrengthBolts d fu =>
      single (tensile_strength_bolts design_method d fu)
  | BearingStrengthBolts d t1 u1 t2 u2 =>
      parts (bearing_strength_bolts design_method d t1 u1 t2 u2)
  | TearoutStrengthBolts d e1 e2 t1 u1 t2 u2 =>
      parts (tearout_strength_bolts design_method d e1 e2 t1 u1 t2 u2)
  | ShearYieldStr t1 l1 y1 t2 l2 y2 =>
      parts (connected_elem_shear_yield_str design_method t1 l1 y1 t2 l2 y2)
  | ShearRuptureStr d n t1 l1 u1 t2 l2 u2 =>
      parts (connected_elem_shear_rupture_str design_method d n
                                              t1 l1 u1 t2 l2 u2)
  | TensileYieldStr t1 l1 y1 t2 l2 y2 =>
      parts (connected_elem_tensile_yield_str design_method t1 l1 y1 t2 l2 y2)
  | TensileRuptureStr d n lag t1 l1 u1 t2 l2 u2 =>
      parts (connected_elem_tensile_rupture_str design_method d n lag
                                                t1 l1 u1 t2 l2 u2)
  | WeldMaterialStrength size len sides =>
      single (weld_material_strength design_method size len sides)
  end.

Definition in_inch (q : Quantity) : Q := magnitude_in inch q.
Definition in_ksi (q : Quantity) : Q := magnitude_in ksi q.
Definition is_length (q : Quantity) : bool := compatible q inch.
Definition is_stress (q : Quantity) : bool := compatible q ksi.

(** Every quantity of the call has the dimension its parameter expects. *)
Definition well_dimensioned (c : Call) : bool :=
  match c with
  | ShearStrengthBolts d fu | TensileStrengthBolts d fu =>
      is_length d && is_stress fu
  | BearingStrengthBolts d t1 u1 t2 u2 =>
      is_length d && is_length t1 && is_stress u1
      && is_length t2 && is_stress u2
  | TearoutStrengthBolts d e1 e2 t1 u1 t2 u2 =>
      is_length d && is_length e1 && is_length e2
      && is_length t1 && is_stress u1 && is_length t2 && is_stress u2
  | ShearYieldStr t1 l1 y1 t2 l2 y2 | TensileYieldStr t1 l1 y1 t2 l2 y2 =>
      is_length t1 && is_length l1 && is_stress y1
      && is_length t2 && is_length l2 && is_stress y2
  | ShearRuptureStr d _ t1 l1 u1 t2 l2 u2
  | TensileRuptureStr d _ _ t1 l1 u1 t2 l2 u2 =>
      is_length d && is_length t1 && is_length l1 && is_stress u1
      && is_length t2 && is_length l2 && is_stress u2
  | WeldMaterialStrength _ len _ => is_length len
  end.

Definition limit_state (c : Call) : Spec.LimitState :=
  match c with
  | ShearStrengthBolts _ _ => Spec.BoltShear
  | TensileStrengthBolts _ _ => Spec.BoltTension
  | BearingStrengthBolts _ _ _ _ _ => Spec.BoltBearing
  | TearoutStrengthBolts _ _ _ _ _ _ _ => Spec.BoltTearout
  | ShearYieldStr _ _ _ _ _ _ => Spec.ElementShearYield
  | ShearRuptureStr _ _ _ _ _ _ _ _ => Spec.ElementShearRupture
  | TensileYieldStr _ _ _ _ _ _ => Spec.ElementTensileYield
  | TensileRuptureStr _ _ _ _ _ _ _ _ _ => Spec.ElementTensileRupture
  | WeldMaterialStrength _ _ _ => Spec.WeldMaterial
  end.

(** The nominal strength Rn of the call, by the specification's formulas. *)
Definition nominal (c : Call) : Value :=
  match c with
  | ShearStrengthBolts d fu => Single (Spec.bolt_shear (in_inch d) (in_ksi fu))
  | TensileStrengthBolts d fu =>
      Single (Spec.bolt_tension (in_inch d) (in_ksi fu))
  | BearingStrengthBolts d t1 u1 t2 u2 =>
      Parts (Spec.bolt_bearing (in_inch d) (in_inch t1) (in_ksi u1))
            (Spec.bolt_bearing (in_inch d) (in_inch t2) (in_ksi u2))
  | TearoutStrengthBolts d e1 e2 t1 u1 t2 u2 =>
      Parts (Spec.bolt_tearout (in_inch d) (in_inch e1) (in_inch t1) (in_ksi u1))
            (Spec.bolt_tearout (in_inch d) (in_inch e2) (in_inch t2) (in_ksi u2))
  | ShearYieldStr t1 l1 y1 t2 l2 y2 =>
      Parts (Spec.shear_yield (in_inch t1) (in_inch l1) (in_ksi y1))
            (Spec.shear_yield (in_inch t2) (in_inch l2) (in_ksi y2))
  | ShearRuptureStr d n t1 l1 u1 t2 l2 u2 =>
      Parts (Spec.shear_rupture (in_inch d) n (in_inch t1) (in_inch l1) (in_ksi u1))
            (Spec.shear_rupture (in_inch d) n (in_inch t2) (in_inch l2) (in_ksi u2))
  | TensileYieldStr t1 l1 y1 t2 l2 y2 =>
      Parts (Spec.tensile_yield (in_inch t1) (in_inch l1) (in_ksi y1))
            (Spec.tensile_yield (in_inch t2) (in_inch l2) (in_ksi y2))
  | TensileRuptureStr d n lag t1 l1 u1 t2 l2 u2 =>
      Parts (Spec.tensile_rupture (in_inch d) n lag
                                  (in_inch t1) (in_inch l1) (in_ksi u1))
            (Spec.tensile_rupture (in_inch d) n lag
                                  (in_inch t2) (in_inch l2) (in_ksi u2))
  | WeldMaterialStrength size len sides =>
      Single (Spec.weld_material size (in_inch len) sides)
  end.

Definition vmap (f : Q -> Q) (v : Value) : Value :=
  match v with
  | Single x => Single (f x)
  | Parts x1 x2 => Parts (f x1) (f x2)
  end.

(** Exchanging the part-1 and part-2 argument groups of a call. *)
Definition exchange_parts (c : Call) : Call :=
  match c with
  | BearingStrengthBolts d t1 u1 t2 u2 => BearingStrengthBolts d t2 u2 t1 u1
  | TearoutStrengthBolts d e1 e2 t1 u1 t2 u2 =>
      TearoutStrengthBolts d e2 e1 t2 u2 t1 u1
  | ShearYieldStr t1 l1 y1 t2 l2 y2 => ShearYieldStr t2 l2 y2 t1 l1 y1
  | ShearRuptureStr d n t1 l1 u1 t2 l2 u2 =>
      ShearRuptureStr d n t2 l2 u2 t1 l1 u1
  | TensileYieldStr t1 l1 y1 t2 l2 y2 => TensileYieldStr t2 l2 y2 t1 l1 y1
  | TensileRuptureStr d n lag t1 l1 u1 t2 l2 u2 =>
      TensileRuptureStr d n lag t2 l2 u2 t1 l1 u1
  | ShearStrengthBolts _ _ | TensileStrengthBolts _ _
  | WeldMaterialStrength _ _ _ => c
  end.

Definition exchange_value (v : Value) : Value :=
  match v with
  | Single x => Single x
  | Parts x1 x2 => Parts x2 x1
  end.

End Api.

Export Api.

(** ** Relations on results *)

(** Two outcomes agree: the same exception, or values related by [R]. *)
Definition result_equiv {A : Type} (R : A -> A -> Prop)
    (r1 r2 : result A) : Prop :=
  match r1, r2 with
  | Ok a1, Ok a2 => R a1 a2
  | Raise e1, Raise e2 => e1 = e2
  | _, _ => False
  end.

Definition Value_equiv (v1 v2 : Value) : Prop :=
  match v1, v2 with
  | Single x, Single y => x == y
  | Parts x1 x2, Parts y1 y2 => x1 == y1 /\ x2 == y2
  | _, _ => False
  end.

Definition fails {A : Type} (r : result A) : Prop := exists e, r = Raise e.

(** Relations on the pairs and optional pairs the functions pass on. *)
Definition Qeq2 (p p' : Q * Q) : Prop :=
  fst p == fst p' /\ snd p == snd p'.

Definition option_equiv {A : Type} (R : A -> A -> Prop)
    (o o' : option A) : Prop :=
  match o, o' with
  | Some a, Some a' => R a a'
  | None, None => True
  | _, _ => False
  end.

(** Applying a function to a returned value. *)
Definition rmap {A B : Type} (f : A -> B) (r : result A) : result B :=
  x <- r ;; Ok (f x).

(** Two quantities that express one physical quantity. *)
Definition same_quantity (q q' : Quantity) : Prop :=
  dimensionality (units q) = dimensionality (units q')
  /\ magnitude q * factor (units q) == magnitude q' * factor (units q').

Inductive same_call : Call -> Call -> Prop :=
| same_shear d d' fu fu' :
    same_quantity d d' -> same_quantity fu fu' ->
    same_call (ShearStrengthBolts d fu) (ShearStrengthBolts d' fu')
| same_tensile d d' fu fu' :
    same_quantity d d' -> same_quantity fu fu' ->
    same_call (TensileStrengthBolts d fu) (TensileStrengthBolts d' fu')
| same_bearing d d' t1 t1' u1 u1' t2 t2' u2 u2' :
    same_quantity d d' -> same_quantity t1 t1' -> same_quantity u1 u1' ->
    same_quantity t2 t2' -> same_quantity u2 u2' ->
    same_call (BearingStrengthBolts d t1 u1 t2 u2)
              (BearingStrengthBolts d' t1' u1' t2' u2')
| same_tearout d d' e1 e1' e2 e2' t1 t1' u1 u1' t2 t2' u2 u2' :
    same_quantity d d' -> same_quantity e1 e1' -> same_quantity e2 e2' ->
    same_quantity t1 t1' -> same_quantity u1 u1' ->
    same_quantity t2 t2' -> same_quantity u2 u2' ->
    same_call (TearoutStrengthBolts d e1 e2 t1 u1 t2 u2)
              (TearoutStrengthBolts d' e1' e2' t1' u1' t2' u2')
| same_shear_yield t1 t1' l1 l1' y1 y1' t2 t2' l2 l2' y2 y2' :
    same_quantity t1 t1' -> same_quantity l1 l1' -> same_quantity y1 y1' ->
    same_quantity t2 t2' -> same_quantity l2 l2' -> same_quantity y2 y2' ->
    same_call (ShearYieldStr t1 l1 y1 t2 l2 y2)
              (ShearYieldStr t1' l1' y1' t2' l2' y2')
| same_shear_rupture d d' n t1 t1' l1 l1' u1 u1' t2 t2' l2 l2' u2 u2' :
    same_quantity d d' ->
    same_quantity t1 t1' -> same_quantity l1 l1' -> same_quantity u1 u1' ->
    same_quantity t2 t2' -> same_quantity l2 l2' -> same_quantity u2 u2' ->
    same_call (ShearRuptureStr d n t1 l1 u1 t2 l2 u2)
              (ShearRuptureStr d' n t1' l1' u1' t2' l2' u2')
| same_tensile_yield t1 t1' l1 l1' y1 y1' t2 t2' l2 l2' y2 y2' :
    same_quantity t1 t1' -> same_quantity l1 l1' -> same_quantity y1 y1' ->
    same_quantity t2 t2' -> same_quantity l2 l2' -> same_quantity y2 y2' ->
    same_call (TensileYieldStr t1 l1 y1 t2 l2 y2)
              (TensileYieldStr t1' l1' y1' t2' l2' y2')
| same_tensile_rupture d d' n lag t1 t1' l1 l1' u1 u1' t2 t2' l2 l2' u2 u2' :
    same_quantity d d' ->
    same_quantity t1 t1' -> same_quantity l1 l1' -> same_quantity u1 u1' ->
    same_quantity t2 t2' -> same_quantity l2 l2' -> same_quantity u2 u2' ->
    same_call (TensileRuptureStr d n lag t1 l1 u1 t2 l2 u2)
              (TensileRuptureStr d' n lag t1' l1' u1' t2' l2' u2')
| same_weld_material size len len' sides :
    same_quantity len len' ->
    same_call (WeldMaterialStrength size len sides)
              (WeldMaterialStrength size len' sides).

(** ** Vocabulary of the further properties *)

(** The quantity [-q]: the same unit with the opposite magnitude. *)
Definition negated (q : Quantity) : Quantity :=
  mkQuantity (- magnitude q) (units q).


(** The ratio of the LRFD factor to the reciprocal of the ASD divisor in
    the branches of each function: 0.75 * 2.00, 1.00 * 1.50, and
    0.90 * 1.67 for tensile yield. *)
Definition lrfd_over_asd (c : Call) : Q :=
  match c with
  | TensileYieldStr _ _ _ _ _ _ => 1.503
  | _ => 1.5
  end.

(** The strength of the first part (the strength itself when single). *)
Definition first_part (v : Value) : Q :=
  match v with
  | Single x => x
  | Parts x1 _ => x1
  end.

(** Two calls of one two-part function that agree on the method-independent
    shared arguments and on the arguments of part 1. *)
Inductive part1_agree : Call -> Call -> Prop :=
| agree_bearing d t1 u1 t2 u2 t2' u2' :
    part1_agree (BearingStrengthBolts d t1 u1 t2 u2)
                (BearingStrengthBolts d t1 u1 t2' u2')
| agree_tearout d e1 e2 e2' t1 u1 t2 u2 t2' u2' :
    part1_agree (TearoutStrengthBolts d e1 e2 t1 u1 t2 u2)
                (TearoutStrengthBolts d e1 e2' t1 u1 t2' u2')
| agree_shear_yield t1 l1 y1 t2 l2 y2 t2' l2' y2' :
    part1_agree (ShearYieldStr t1 l1 y1 t2 l2 y2)
                (ShearYieldStr t1 l1 y1 t2' l2' y2')
| agree_shear_rupture d n t1 l1 u1 t2 l2 u2 t2' l2' u2' :
    part1_agree (ShearRuptureStr d n t1 l1 u1 t2 l2 u2)
                (ShearRuptureStr d n t1 l1 u1 t2' l2' u2')
| agree_tensile_yield t1 l1 y1 t2 l2 y2 t2' l2' y2' :
    part1_agree (TensileYieldStr t1 l1 y1 t2 l2 y2)
                (TensileYieldStr t1 l1 y1 t2' l2' y2')
| agree_tensile_rupture d n lag t1 l1 u1 t2 l2 u2 t2' l2' u2' :
    part1_agree (TensileRuptureStr d n lag t1 l1 u1 t2 l2 u2)
                (TensileRuptureStr d n lag t1 l1 u1 t2' l2' u2').

(** * Properties *)

(** ** Basic facts about the Python and pint layers *)

Lemma Qltb_true (x y : Q) : Qltb x y = true <-> x < y.
Proof.
  unfold Qltb. rewrite negb_true_iff.
  destruct (Qle_bool y x) eqn:E.
  - apply Qle_bool_iff in E. split; [discriminate | intros H; lra].
  - split; [intros _ | reflexivity].
    destruct (Qlt_le_dec x y) as [H | H]; [exact H |].
    apply Qle_bool_iff in H. congruence.
Qed.

Lemma Qltb_false (x y : Q) : Qltb x y = false <-> y <= x.
Proof.
  unfold Qltb. rewrite negb_false_iff. apply Qle_bool_iff.
Qed.

Lemma Qle_bool_false (x y : Q) : Qle_bool x y = false <-> y < x.
Proof.
  rewrite <- Qltb_true. unfold Qltb.
  destruct (Qle_bool x y); simpl; split; congruence.
Qed.

Lemma min_spec (a b : Q) : min a b == Qmin a b.
Proof.
  unfold min. destruct (Qltb b a) eqn:E.
  - apply Qltb_true in E. rewrite Q.min_r; [reflexivity | lra].
  - apply Qltb_false in E. rewrite Q.min_l; [reflexivity | lra].
Qed.

Lemma Qltb_comp (x x' y y' : Q) :
  x == x' -> y == y' -> Qltb x y = Qltb x' y'.
Proof. intros Hx Hy. unfold Qltb. now rewrite Hx, Hy. Qed.

Lemma min_comp (a a' b b' : Q) : a == a' -> b == b' -> min a b == min a' b'.
Proof. intros Ha Hb. rewrite !min_spec. now rewrite Ha, Hb. Qed.

Lemma min_comm (a b : Q) : min a b == min b a.
Proof. rewrite !min_spec. apply Q.min_comm. Qed.

Lemma to_compatible (q : Quantity) (u : Unit) :
  compatible q u = true -> to q u = Ok (magnitude_in u q).
Proof. unfold to. intros ->. reflexivity. Qed.

Lemma design_method_asd : ("ASD" =? "ASD") = true.
Proof. reflexivity. Qed.

Lemma design_method_lrfd :
  ("LRFD" =? "ASD") = false /\ ("LRFD" =? "LRFD") = true.
Proof. split; reflexivity. Qed.

(** Splits the conjunction of dimension checks of a call. *)
Ltac split_dims :=
  unfold is_length, is_stress in *;
  repeat match goal with
         | H : (_ && _)%bool = true |- _ =>
             apply andb_prop in H; destruct H
         end.

(** Runs the unit conversions that are known to succeed. *)
Ltac convert :=
  repeat (rewrite to_compatible by assumption; unfold bind at 1).

(** ** C1: the design-method factors *)

(** C1.  For each of the nine limit-state functions of the table and every
    input whose quantities have the expected dimensions, the ASD result is
    the nominal strength Rn divided by the safety factor of that limit
    state and the LRFD result is Rn multiplied by its reduction factor,
    with the pairs of the table: (2.00, 0.75) for bolt shear, tension,
    bearing and tearout, element shear and tensile rupture and weld
    material; (1.50, 1.00) for element shear yield; (1.67, 0.90) for
    element tensile yield. *)
Theorem design_method_factors (c : Call) :
  well_dimensioned c = true ->
  result_equiv Value_equiv (call "ASD" c)
    (Ok (vmap (fun rn => rn / Spec.asd_factor (limit_state c)) (nominal c)))
  /\ result_equiv Value_equiv (call "LRFD" c)
    (Ok (vmap (fun rn => rn * Spec.lrfd_factor (limit_state c)) (nominal c))).
Proof.
  destruct c; simpl well_dimensioned; intros H; split_dims.
  all: unfold call, single, parts.
  all: unfold shear_strength_bolts, tensile_strength_bolts,
         nominal_fastener_strength, bearing_strength_bolts,
         tearout_strength_bolts, connected_elem_shear_yield_str,
         connected_elem_shear_rupture_str, connected_elem_tensile_yield_str,
         connected_elem_tensile_rupture_str, weld_material_strength.
  all: convert.
  all: rewrite design_method_asd.
  all: destruct design_method_lrfd as [-> ->].
  all: cbv [bind result_equiv Value_equiv vmap nominal limit_state
            Spec.asd_factor Spec.lrfd_factor].
  all: unfold Spec.bolt_shear, Spec.bolt_tension, Spec.f_nv, Spec.f_nt,
         Spec.bolt_bearing, Spec.bolt_tearout, Spec.net_dist,
         Spec.shear_yield, Spec.shear_rupture, Spec.tensile_yield,
         Spec.tensile_rupture, Spec.net_area, Spec.net_width,
         Spec.weld_material, in_inch, in_ksi.
  all: repeat split; try reflexivity; ring.
Qed.

(** ** C2: fastener stresses and nominal bolt strengths *)

Lemma math_pi_bounds : 3.14159265358979 < math_pi /\ math_pi < 3.14159265358980.
Proof. split; reflexivity. Qed.

Lemma shear_strength_bolts_lrfd_example :
  exists x : Q,
    shear_strength_bolts "LRFD" (inches 0.75) (ksis 120) = Ok x
    /\ x == 0.75 * 54 * (math_pi / 4) * 0.75 ^ 2
    /\ 17.885 < x /\ x < 17.895.
Proof.
  eexists. split; [reflexivity |].
  repeat split; vm_compute; reflexivity.
Qed.

(** C2.  For every bolt diameter and ultimate stress (a length and a
    stress), [nominal_fastener_strength] returns f_nv = 0.45 f_u and
    f_nt = 0.75 f_u; [shear_strength_bolts] applies the design-method factor
    to Rn = f_nv (pi/4) dia^2 and [tensile_strength_bolts] to
    Rn = f_nt (pi/4) dia^2; and [shear_strength_bolts("LRFD", 0.75 in,
    120 ksi)] is 0.75 * 54 * (pi/4) * 0.75^2, which is 17.89 to two
    decimals. *)
Theorem bolt_nominal_strength (bolt_dia f_u : Quantity) :
  is_length bolt_dia = true -> is_stress f_u = true ->
  let dia := in_inch bolt_dia in
  let f_nv := 0.45 * in_ksi f_u in
  let f_nt := 0.75 * in_ksi f_u in
  nominal_fastener_strength f_u = Ok (f_nv, f_nt)
  /\ result_equiv Qeq (shear_strength_bolts "ASD" bolt_dia f_u)
       (Ok (f_nv * (math_pi / 4) * dia ^ 2 / 2.00))
  /\ result_equiv Qeq (shear_strength_bolts "LRFD" bolt_dia f_u)
       (Ok (0.75 * (f_nv * (math_pi / 4) * dia ^ 2)))
  /\ result_equiv Qeq (tensile_strength_bolts "ASD" bolt_dia f_u)
       (Ok (f_nt * (math_pi / 4) * dia ^ 2 / 2.00))
  /\ result_equiv Qeq (tensile_strength_bolts "LRFD" bolt_dia f_u)
       (Ok (0.75 * (f_nt * (math_pi / 4) * dia ^ 2)))
  /\ (exists x : Q,
        shear_strength_bolts "LRFD" (inches 0.75) (ksis 120) = Ok x
        /\ x == 0.75 * 54 * (math_pi / 4) * 0.75 ^ 2
        /\ 17.885 < x /\ x < 17.895).
Proof.
  intros Hd Hu dia f_nv f_nt. split_dims.
  repeat (split; [| try exact shear_strength_bolts_lrfd_example]).
  all: unfold shear_strength_bolts, tensile_strength_bolts,
         nominal_fastener_strength.
  all: convert; cbv [bind result_equiv].
  all: try rewrite design_method_asd.
  all: try (destruct design_method_lrfd as [-> ->]).
  all: reflexivity.
Qed.

(** ** C3: weld rupture strength against weld material strength *)

Lemma truediv_nonzero (a b : Q) : ~ b == 0 -> truediv a b = Ok (a / b).
Proof.
  intros Hb. unfold truediv.
  destruct (Qeq_bool b 0) eqn:E; [| reflexivity].
  apply Qeq_bool_iff in E. contradiction.
Qed.

Lemma truediv_zero (a b : Q) : b == 0 -> truediv a b = Raise ZeroDivisionError.
Proof.
  intros Hb. unfold truediv. apply Qeq_bool_iff in Hb. now rewrite Hb.
Qed.

Lemma to_inches (x : Q) : exists y, to (inches x) inch = Ok y /\ y == x.
Proof.
  exists (magnitude_in inch (inches x)). split; [reflexivity |].
  unfold magnitude_in, inches, inch. simpl. field.
Qed.

(** [weld_material_strength] on a length already expressed in inches. *)
Lemma weld_material_strength_inches (design_method : string) (weld_size : Q)
    (weld_length : Quantity) (weld_sides : Z) :
  is_length weld_length = true ->
  result_equiv Qeq
    (weld_material_strength design_method weld_size
       (inches (in_inch weld_length)) weld_sides)
    (weld_material_strength design_method weld_size weld_length weld_sides).
Proof.
  intros Hl. split_dims. unfold weld_material_strength.
  destruct (to_inches (in_inch weld_length)) as (y & -> & Hy).
  convert. cbv [bind]. fold (in_inch weld_length).
  destruct (design_method =? "ASD"); [| destruct (design_method =? "LRFD")].
  all: cbv [result_equiv]; try reflexivity.
  all: now rewrite Hy.
Qed.

(** The reductions the source computes are those of the specification. *)
Lemma reduction_one_side (weld_size t fu : Q) :
  ~ weld_size == 0 -> ~ fu == 0 ->
  t / (0.60 * 70 * (0.707 * (weld_size / 16)) / (0.6 * fu))
  == Spec.reduction weld_size 1 t fu.
Proof.
  intros Hs Hu. unfold Spec.reduction, Spec.required_min_t.
  change (inject_Z 1) with 1. field. split; assumption.
Qed.

Lemma reduction_two_sides (weld_size t fu : Q) :
  ~ weld_size == 0 -> ~ fu == 0 ->
  t / (2 * (0.60 * 70 * (0.707 * (weld_size / 16))) / (0.6 * fu))
  == Spec.reduction weld_size 2 t fu.
Proof.
  intros Hs Hu. unfold Spec.reduction, Spec.required_min_t.
  change (inject_Z 2) with 2. field. split; assumption.
Qed.

Lemma weld_strength_per_length_nonzero (weld_size k : Q) :
  ~ weld_size == 0 -> ~ k == 0 ->
  ~ k * (0.60 * 70 * (0.707 * (weld_size / 16))) == 0.
Proof.
  intros Hs Hk E.
  assert (E' : k * weld_size == 0).
  { transitivity
      (k * (0.60 * 70 * (0.707 * (weld_size / 16)))
       * (16 / (0.60 * 70 * 0.707))).
    - field.
    - rewrite E. ring. }
  apply Qmult_integral in E'. tauto.
Qed.

Lemma Qdiv_nonzero (a b : Q) : ~ a == 0 -> ~ b == 0 -> ~ a / b == 0.
Proof.
  intros Ha Hb E. apply Ha.
  transitivity (a / b * b); [field; assumption | rewrite E; ring].
Qed.

(** The last step of [weld_rupture_strength]: the choice between the weld
    metal and the base metal, given the reductions up to [==]. *)
Lemma weld_rupture_choice (w w' r1 r2 R1 R2 : Q) :
  w == w' -> r1 == R1 -> r2 == R2 ->
  (1 <= R1 -> 1 <= R2 ->
   result_equiv Qeq
     (if Qltb r1 1 || Qltb r2 1 then Ok (w * min r1 r2) else Ok w) (Ok w'))
  /\ (R1 < 1 \/ R2 < 1 ->
   result_equiv Qeq
     (if Qltb r1 1 || Qltb r2 1 then Ok (w * min r1 r2) else Ok w)
     (Ok (w' * Qmin R1 R2))).
Proof.
  intros Ew E1 E2.
  assert (Em : min r1 r2 == Qmin R1 R2).
  { rewrite min_spec. destruct (Q.min_spec r1 r2) as [[H ->] | [H ->]];
      destruct (Q.min_spec R1 R2) as [[H' ->] | [H' ->]]; lra. }
  destruct (Qltb r1 1) eqn:L1; destruct (Qltb r2 1) eqn:L2; simpl.
  all: try apply Qltb_true in L1; try apply Qltb_true in L2.
  all: try apply Qltb_false in L1; try apply Qltb_false in L2.
  all: split; intros; try lra.
  all: rewrite Em, Ew; reflexivity.
Qed.

(** With valid arguments [weld_rupture_strength] reaches its last step. *)
Lemma weld_rupture_strength_valid (design_method : string) (weld_size : Q)
    (weld_length : Quantity) (weld_sides : Z)
    (part1_t part1_ult part2_t part2_ult : Quantity) :
  is_length weld_length = true ->
  is_length part1_t = true -> is_stress part1_ult = true ->
  is_length part2_t = true -> is_stress part2_ult = true ->
  weld_sides = 1%Z \/ weld_sides = 2%Z ->
  ~ weld_size == 0 ->
  ~ in_ksi part1_ult == 0 -> ~ in_ksi part2_ult == 0 ->
  let per_length := 0.60 * 70 * (0.707 * (weld_size / 16)) in
  let strength :=
    if (weld_sides =? 1)%Z then per_length else 2 * per_length in
  let r1 := in_inch part1_t / (strength / (0.6 * in_ksi part1_ult)) in
  let r2 := in_inch part2_t / (strength / (0.6 * in_ksi part2_ult)) in
  weld_rupture_strength design_method weld_size weld_length weld_sides
    part1_t part1_ult part2_t part2_ult
  = (w <- weld_material_strength design_method weld_size
            (inches (in_inch weld_length)) weld_sides ;;
     if Qltb r1 1 || Qltb r2 1 then Ok (w * min r1 r2) else Ok w).
Proof.
  intros Hl Ht1 Hu1 Ht2 Hu2 Hsides Hs Hn1 Hn2.
  split_dims. unfold weld_rupture_strength. convert.
  fold (in_inch weld_length) (in_inch part1_t) (in_inch part2_t)
       (in_ksi part1_ult) (in_ksi part2_ult).
  assert (Hk1 : ~ 0.6 * in_ksi part1_ult == 0) by (intros E; apply Hn1; lra).
  assert (Hk2 : ~ 0.6 * in_ksi part2_ult == 0) by (intros E; apply Hn2; lra).
  assert (Hws : ~ 0.60 * 70 * (0.707 * (weld_size / 16)) == 0).
  { intros E.
    apply (weld_strength_per_length_nonzero weld_size 1 Hs); [lra |].
    rewrite E. ring. }
  assert (Hws2 : ~ 2 * (0.60 * 70 * (0.707 * (weld_size / 16))) == 0)
    by (apply weld_strength_per_length_nonzero; [assumption | lra]).
  destruct Hsides as [-> | ->].
  - change ((1 =? 1)%Z) with true. cbv iota zeta.
    rewrite !truediv_nonzero by assumption.
    cbv [bind option_map local fst snd].
    rewrite !truediv_nonzero by (apply Qdiv_nonzero; assumption).
    reflexivity.
  - change ((2 =? 1)%Z) with false. change ((2 =? 2)%Z) with true.
    cbv iota zeta.
    rewrite !truediv_nonzero by assumption.
    cbv [bind option_map local fst snd].
    rewrite !truediv_nonzero by (apply Qdiv_nonzero; assumption).
    reflexivity.
Qed.

(** C3.  For every input with quantities of the expected dimensions,
    [weld_sides] 1 or 2 and non-zero weld size and ultimate stresses, with
    reduction_i = t_i / required_min_t_i: when both reductions are at least
    1, [weld_rupture_strength] returns what [weld_material_strength]
    returns for the same method, weld size, length and sides; when either
    is below 1, it returns that strength multiplied by
    min(reduction_1, reduction_2). *)
Theorem weld_rupture_governing (design_method : string) (weld_size : Q)
    (weld_length : Quantity) (weld_sides : Z)
    (part1_t part1_ult part2_t part2_ult : Quantity) :
  is_length weld_length = true ->
  is_length part1_t = true -> is_stress part1_ult = true ->
  is_length part2_t = true -> is_stress part2_ult = true ->
  weld_sides = 1%Z \/ weld_sides = 2%Z ->
  ~ weld_size == 0 ->
  ~ in_ksi part1_ult == 0 -> ~ in_ksi part2_ult == 0 ->
  let reduction_1 :=
    Spec.reduction weld_size weld_sides (in_inch part1_t) (in_ksi part1_ult) in
  let reduction_2 :=
    Spec.reduction weld_size weld_sides (in_inch part2_t) (in_ksi part2_ult) in
  (1 <= reduction_1 -> 1 <= reduction_2 ->
   result_equiv Qeq
     (weld_rupture_strength design_method weld_size weld_length weld_sides
        part1_t part1_ult part2_t part2_ult)
     (weld_material_strength design_method weld_size weld_length weld_sides))
  /\ (reduction_1 < 1 \/ reduction_2 < 1 ->
   result_equiv Qeq
     (weld_rupture_strength design_method weld_size weld_length weld_sides
        part1_t part1_ult part2_t part2_ult)
     (w <- weld_material_strength design_method weld_size weld_length
             weld_sides ;;
      Ok (w * Qmin reduction_1 reduction_2))).
Proof.
  intros Hl Ht1 Hu1 Ht2 Hu2 Hsides Hs Hn1 Hn2 reduction_1 reduction_2.
  rewrite weld_rupture_strength_valid by assumption.
  pose proof (weld_material_strength_inches design_method weld_size
                weld_length weld_sides Hl) as Hw.
  assert (E : forall t fu, ~ fu == 0 ->
            t / ((if (weld_sides =? 1)%Z
                  then 0.60 * 70 * (0.707 * (weld_size / 16))
                  else 2 * (0.60 * 70 * (0.707 * (weld_size / 16))))
                 / (0.6 * fu))
            == Spec.reduction weld_size weld_sides t fu).
  { intros t fu Hfu. destruct Hsides as [-> | ->].
    - apply reduction_one_side; assumption.
    - apply reduction_two_sides; assumption. }
  pose proof (E (in_inch part1_t) _ Hn1) as E1.
  pose proof (E (in_inch part2_t) _ Hn2) as E2.
  destruct (weld_material_strength design_method weld_size
              (inches (in_inch weld_length)) weld_sides) as [w | e];
    destruct (weld_material_strength design_method weld_size
                weld_length weld_sides) as [w' | e'];
    cbv [result_equiv] in Hw; try contradiction; cbv [bind].
  - exact (weld_rupture_choice w w' _ _ _ _ Hw E1 E2).
  - split; intros; assumption.
Qed.

(** ** C4: net area of the rupture limit states *)

Lemma nonpositive_strength (t u w lag : Q) :
  0 < lag <= 1 -> 0 <= t -> 0 <= u -> w <= 0 ->
  0.60 * u * (t * w) <= 0 /\ u * (t * w) * lag <= 0.
Proof.
  intros Hlag Ht Hu Hw.
  assert (H1 : t * w <= 0) by nra.
  assert (H2 : u * (t * w) <= 0) by nra.
  split; [lra |].
  assert (H3 : 0 <= - (u * (t * w)) * lag)
    by (apply Qmult_le_0_compat; lra).
  lra.
Qed.

Lemma halve_nonpositive (x : Q) : x <= 0 -> x / 2.00 <= 0.
Proof.
  intros H. setoid_replace (x / 2.00) with (x * 0.5) by field. lra.
Qed.

(** C4.  For every input with quantities of the expected dimensions and a
    valid method, [connected_elem_shear_rupture_str] and
    [connected_elem_tensile_rupture_str] use, for each part,
    net_width = len - (dia + 0.063) * bolt_count and net area
    t * net_width; the shear strengths are the design-method factor applied
    to 0.60 * fu * area, the tensile ones to fu * area * shear_lag; and
    for non-negative thickness and stress and a shear lag in (0, 1], a part
    whose net width is not positive gets a strength that is not positive,
    with no exception raised. *)
Theorem rupture_net_area (design_method : string) (bolt_dia : Quantity)
    (bolt_count : Z) (shear_lag : Q)
    (part1_t part1_len part1_ult part2_t part2_len part2_ult : Quantity) :
  design_method = "ASD" \/ design_method = "LRFD" ->
  is_length bolt_dia = true ->
  is_length part1_t = true -> is_length part1_len = true ->
  is_stress part1_ult = true ->
  is_length part2_t = true -> is_length part2_len = true ->
  is_stress part2_ult = true ->
  let factor (rn : Q) : Q :=
    if design_method =? "ASD" then rn / 2.00 else 0.75 * rn in
  let net_width_1 :=
    in_inch part1_len - (in_inch bolt_dia + 0.063) * inject_Z bolt_count in
  let net_width_2 :=
    in_inch part2_len - (in_inch bolt_dia + 0.063) * inject_Z bolt_count in
  let area_1 := in_inch part1_t * net_width_1 in
  let area_2 := in_inch part2_t * net_width_2 in
  exists s1 s2 t1 t2 : Q,
    connected_elem_shear_rupture_str design_method bolt_dia bolt_count
      part1_t part1_len part1_ult part2_t part2_len part2_ult = Ok (s1, s2)
    /\ connected_elem_tensile_rupture_str design_method bolt_dia bolt_count
         shear_lag part1_t part1_len part1_ult part2_t part2_len part2_ult
       = Ok (t1, t2)
    /\ s1 == factor (0.60 * in_ksi part1_ult * area_1)
    /\ s2 == factor (0.60 * in_ksi part2_ult * area_2)
    /\ t1 == factor (in_ksi part1_ult * area_1 * shear_lag)
    /\ t2 == factor (in_ksi part2_ult * area_2 * shear_lag)
    /\ (0 < shear_lag <= 1 ->
        0 <= in_inch part1_t -> 0 <= in_ksi part1_ult ->
        net_width_1 <= 0 -> s1 <= 0 /\ t1 <= 0)
    /\ (0 < shear_lag <= 1 ->
        0 <= in_inch part2_t -> 0 <= in_ksi part2_ult ->
        net_width_2 <= 0 -> s2 <= 0 /\ t2 <= 0).
Proof.
  intros Hm Hd Ht1 Hl1 Hu1 Ht2 Hl2 Hu2. split_dims.
  unfold connected_elem_shear_rupture_str, connected_elem_tensile_rupture_str.
  convert.
  fold (in_inch bolt_dia) (in_inch part1_t) (in_inch part2_t)
       (in_inch part1_len) (in_inch part2_len)
       (in_ksi part1_ult) (in_ksi part2_ult).
  cbv zeta.
  destruct Hm as [-> | ->];
    [rewrite design_method_asd | destruct design_method_lrfd as [-> ->]].
  all: do 4 eexists; split; [reflexivity |]; split; [reflexivity |].
  all: do 4 (split; [reflexivity |]).
  all: split; intros Hlag Ht Hu Hw;
         destruct (nonpositive_strength _ _ _ _ Hlag Ht Hu Hw) as [A B].
  all: split; try (apply halve_nonpositive; assumption); lra.
Qed.

(** ** C5: a design method other than "ASD" and "LRFD" *)

Lemma fails_raise {A : Type} (e : exception) : fails (@Raise A e).
Proof. exists e. reflexivity. Qed.

Lemma fails_bind {A B : Type} (r : result A) (k : A -> result B) :
  (forall a, fails (k a)) -> fails (bind r k).
Proof.
  intros H. destruct r as [a | e]; [apply H | apply fails_raise].
Qed.

Lemma fails_bind_first {A B : Type} (r : result A) (k : A -> result B) :
  fails r -> fails (bind r k).
Proof. intros [e ->]. apply fails_raise. Qed.

Lemma invalid_method_branches {A : Type} (design_method : string)
    (asd lrfd : result A) :
  design_method <> "ASD" -> design_method <> "LRFD" ->
  (if design_method =? "ASD" then asd
   else if design_method =? "LRFD" then lrfd
   else Raise invalid_design_method) = Raise invalid_design_method.
Proof.
  intros H1 H2. apply String.eqb_neq in H1, H2. now rewrite H1, H2.
Qed.

Ltac unfold_limit_states :=
  unfold shear_strength_bolts, tensile_strength_bolts,
    nominal_fastener_strength, bearing_strength_bolts,
    tearout_strength_bolts, connected_elem_shear_yield_str,
    connected_elem_shear_rupture_str, connected_elem_tensile_yield_str,
    connected_elem_tensile_rupture_str, weld_material_strength.

Lemma call_invalid_method_fails (design_method : string) (c : Call) :
  design_method <> "ASD" -> design_method <> "LRFD" ->
  fails (call design_method c).
Proof.
  intros H1 H2. destruct c; unfold call, single, parts.
  all: apply fails_bind_first; unfold_limit_states.
  all: repeat (apply fails_bind; intros ?;
               try match goal with p : (Q * Q)%type |- _ => destruct p end).
  all: rewrite invalid_method_branches by assumption; apply fails_raise.
Qed.

Lemma call_invalid_method (design_method : string) (c : Call) :
  design_method <> "ASD" -> design_method <> "LRFD" ->
  well_dimensioned c = true ->
  call design_method c = Raise invalid_design_method.
Proof.
  intros H1 H2. destruct c; simpl well_dimensioned; intros H; split_dims.
  all: unfold call, single, parts; unfold_limit_states; convert.
  all: cbv [bind]; now rewrite invalid_method_branches by assumption.
Qed.

Lemma weld_rupture_invalid_method_fails (design_method : string)
    (weld_size : Q) (weld_length : Quantity) (weld_sides : Z)
    (part1_t part1_ult part2_t part2_ult : Quantity) :
  design_method <> "ASD" -> design_method <> "LRFD" ->
  fails (weld_rupture_strength design_method weld_size weld_length weld_sides
           part1_t part1_ult part2_t part2_ult).
Proof.
  intros H1 H2. unfold weld_rupture_strength.
  do 10 (apply fails_bind; intros ?).
  apply fails_bind_first. unfold weld_material_strength.
  apply fails_bind; intros ?.
  rewrite invalid_method_branches by assumption. apply fails_raise.
Qed.

(** C5.  With a design method other than "ASD" and "LRFD", none of the
    functions that take a design method returns a value; whenever the other
    arguments are valid (quantities of the expected dimensions and, for
    [weld_rupture_strength], [weld_sides] 1 or 2 and non-zero weld size and
    stresses) the exception is the [ValueError] of the invalid design
    method.  The functions are pure: there is no state to leave changed. *)
Theorem invalid_design_method_raises (design_method : string) :
  design_method <> "ASD" -> design_method <> "LRFD" ->
  (forall c : Call, fails (call design_method c))
  /\ (forall c : Call, well_dimensioned c = true ->
        call design_method c = Raise invalid_design_method)
  /\ (forall weld_size weld_length weld_sides
             part1_t part1_ult part2_t part2_ult,
        fails (weld_rupture_strength design_method weld_size weld_length
                 weld_sides part1_t part1_ult part2_t part2_ult))
  /\ (forall weld_size weld_length weld_sides
             part1_t part1_ult part2_t part2_ult,
        is_length weld_length = true ->
        is_length part1_t = true -> is_stress part1_ult = true ->
        is_length part2_t = true -> is_stress part2_ult = true ->
        weld_sides = 1%Z \/ weld_sides = 2%Z ->
        ~ weld_size == 0 ->
        ~ in_ksi part1_ult == 0 -> ~ in_ksi part2_ult == 0 ->
        weld_rupture_strength design_method weld_size weld_length
          weld_sides part1_t part1_ult part2_t part2_ult
        = Raise invalid_design_method).
Proof.
  intros H1 H2. repeat split.
  - intros c. now apply call_invalid_method_fails.
  - intros c. now apply call_invalid_method.
  - intros. now apply weld_rupture_invalid_method_fails.
  - intros. rewrite weld_rupture_strength_valid by assumption.
    unfold weld_material_strength.
    destruct (to_inches (in_inch weld_length)) as (y & -> & _).
    cbv [bind]. now rewrite invalid_method_branches by assumption.
Qed.

(** ** C6: a number of weld sides other than 1 and 2 *)



(** ** C7 and C8: the minimum weld size *)

(** The value [min_weld_size] returns, from the smaller thickness. *)
Lemma min_weld_size_step (part1_t part2_t : Quantity) (t_min : Q) :
  is_length part1_t = true -> is_length part2_t = true ->
  t_min == Qmin (in_inch part1_t) (in_inch part2_t) ->
  min_weld_size part1_t part2_t = Ok (Some (Spec.min_weld_size t_min)).
Proof.
  intros H1 H2 Ht. split_dims. unfold min_weld_size. convert.
  fold (in_inch part1_t) (in_inch part2_t). cbv zeta.
  rewrite <- min_spec in Ht. unfold Spec.min_weld_size.
  set (m := min (in_inch part1_t) (in_inch part2_t)) in *.
  destruct (Qltb m 0.25) eqn:A1; destruct (Qltb t_min 0.25) eqn:B1;
    destruct (Qltb m 0.5) eqn:A2; destruct (Qltb t_min 0.5) eqn:B2;
    destruct (Qltb m 0.75) eqn:A3; destruct (Qltb t_min 0.75) eqn:B3;
    destruct (Qle_bool 0.25 m) eqn:L1; destruct (Qle_bool 0.5 m) eqn:L2;
    destruct (Qle_bool 0.75 m) eqn:L3; simpl; try reflexivity; exfalso.
  all: repeat match goal with
         | H : Qltb _ _ = true |- _ => apply Qltb_true in H
         | H : Qltb _ _ = false |- _ => apply Qltb_false in H
         | H : Qle_bool _ _ = true |- _ => apply Qle_bool_iff in H
         | H : Qle_bool _ _ = false |- _ => apply Qle_bool_false in H
         end.
  all: lra.
Qed.

(** C7.  [min_weld_size] is a step function of
    t_min = min(t1, t2) in inches, with brackets closed below and open
    above at 0.25, 0.5 and 0.75: below 0.25 it returns 0.1250, from 0.25
    to below 0.5 it returns 0.1875, from 0.5 to below 0.75 it returns
    0.2500, and from 0.75 on it returns 0.3125; so t_min exactly 0.25
    gives 0.1875 and t_min exactly 0.75 gives 0.3125. *)
Theorem min_weld_size_brackets (part1_t part2_t : Quantity) :
  is_length part1_t = true -> is_length part2_t = true ->
  let t_min := Qmin (in_inch part1_t) (in_inch part2_t) in
  (t_min < 0.25 -> min_weld_size part1_t part2_t = Ok (Some 0.1250))
  /\ (0.25 <= t_min < 0.5 ->
      min_weld_size part1_t part2_t = Ok (Some 0.1875))
  /\ (0.5 <= t_min < 0.75 ->
      min_weld_size part1_t part2_t = Ok (Some 0.2500))
  /\ (0.75 <= t_min -> min_weld_size part1_t part2_t = Ok (Some 0.3125))
  /\ (t_min == 0.25 -> min_weld_size part1_t part2_t = Ok (Some 0.1875))
  /\ (t_min == 0.75 -> min_weld_size part1_t part2_t = Ok (Some 0.3125)).
Proof.
  intros H1 H2 t_min.
  rewrite (min_weld_size_step part1_t part2_t t_min H1 H2)
    by reflexivity.
  unfold Spec.min_weld_size.
  repeat split; intros H.
  all: destruct (Qltb t_min 0.25) eqn:B1; destruct (Qltb t_min 0.5) eqn:B2;
         destruct (Qltb t_min 0.75) eqn:B3; try reflexivity; exfalso.
  all: repeat match goal with
         | H : Qltb _ _ = true |- _ => apply Qltb_true in H
         | H : Qltb _ _ = false |- _ => apply Qltb_false in H
         end.
  all: lra.
Qed.

Lemma min_weld_size_boundaries :
  min_weld_size (inches 0.25) (inches 1) = Ok (Some 0.1875)
  /\ min_weld_size (inches 2) (inches 0.75) = Ok (Some 0.3125)
  /\ min_weld_size (millimeters 12.7) (inches 1) = Ok (Some 0.2500).
Proof. repeat split; reflexivity. Qed.

(** C8, as the specification states it, fails: a negative smaller
    thickness is below 0.25 in, and the call returns 0.1250. *)
Lemma negative_thickness_first_bracket :
  Qmin (in_inch (inches (-1))) (in_inch (inches 1)) < 0
  /\ min_weld_size (inches (-1)) (inches 1) = Ok (Some 0.1250)
  /\ min_weld_size (inches (-1)) (inches 1) <> Ok None.
Proof.
  split; [reflexivity |]. split; [reflexivity | discriminate].
Qed.

(** C8, amended.  For every call of [min_weld_size] on two lengths whose
    smaller one is negative, the function returns 0.1250: the first
    bracket, t_min < 0.25 in, has no lower bound. *)
Theorem min_weld_size_negative (part1_t part2_t : Quantity) :
  is_length part1_t = true -> is_length part2_t = true ->
  Qmin (in_inch part1_t) (in_inch part2_t) < 0 ->
  min_weld_size part1_t part2_t = Ok (Some 0.1250).
Proof.
  intros H1 H2 Hneg.
  rewrite (min_weld_size_step part1_t part2_t _ H1 H2) by reflexivity.
  unfold Spec.min_weld_size.
  destruct (Qltb _ 0.25) eqn:B1; [reflexivity |].
  apply Qltb_false in B1. lra.
Qed.

(** On two lengths [min_weld_size] always returns a number. *)
Lemma min_weld_size_total (part1_t part2_t : Quantity) :
  is_length part1_t = true -> is_length part2_t = true ->
  exists size : Q, min_weld_size part1_t part2_t = Ok (Some size).
Proof.
  intros H1 H2. eexists.
  apply min_weld_size_step; [assumption | assumption | reflexivity].
Qed.

(** ** Unit invariance in exact arithmetic, and dimension errors *)

Lemma same_quantity_compatible (q q' : Quantity) (u : Unit) :
  same_quantity q q' -> compatible q u = compatible q' u.
Proof. intros [Hd _]. unfold compatible. now rewrite Hd. Qed.

Lemma same_quantity_magnitude (q q' : Quantity) (u : Unit) :
  same_quantity q q' -> magnitude_in u q == magnitude_in u q'.
Proof.
  intros [_ Hm]. unfold magnitude_in, Qdiv.
  rewrite !Qmult_assoc. now rewrite Hm.
Qed.

Lemma same_quantity_to (q q' : Quantity) (u : Unit) :
  same_quantity q q' -> result_equiv Qeq (to q u) (to q' u).
Proof.
  intros H. unfold to. rewrite (same_quantity_compatible q q' u H).
  destruct (compatible q' u); cbv [result_equiv]; [| reflexivity].
  now apply same_quantity_magnitude.
Qed.

Lemma same_quantity_inches (x y : Q) :
  x == y -> same_quantity (inches x) (inches y).
Proof. intros H. split; [reflexivity |]. simpl. now rewrite H. Qed.

Lemma bind_equiv {A B : Type} (R : A -> A -> Prop) (S : B -> B -> Prop)
    (r r' : result A) (k k' : A -> result B) :
  result_equiv R r r' ->
  (forall a a', R a a' -> result_equiv S (k a) (k' a')) ->
  result_equiv S (bind r k) (bind r' k').
Proof.
  intros Hr Hk. destruct r as [a | e]; destruct r' as [a' | e'];
    cbv [result_equiv] in Hr; try contradiction; cbv [bind].
  - now apply Hk.
  - exact Hr.
Qed.

(** One step through a conversion of two quantities that are the same. *)
Ltac same_conversion :=
  eapply (bind_equiv Qeq);
  [apply same_quantity_to; assumption | intros ? ? ?].

(** The three branches on the design method, related componentwise. *)
Ltac same_branches design_method :=
  destruct (design_method =? "ASD");
  [| destruct (design_method =? "LRFD")];
  cbv [bind result_equiv Value_equiv Qeq2 fst snd];
  try reflexivity;
  repeat split;
  repeat match goal with H : _ == _ |- _ => rewrite H; clear H end;
  reflexivity.

Lemma nominal_fastener_strength_same (f_u f_u' : Quantity) :
  same_quantity f_u f_u' ->
  result_equiv Qeq2 (nominal_fastener_strength f_u)
    (nominal_fastener_strength f_u').
Proof.
  intros H. unfold nominal_fastener_strength. same_conversion.
  cbv [result_equiv Qeq2 fst snd]. split; now rewrite H0.
Qed.

Lemma call_same (design_method : string) (c c' : Call) :
  same_call c c' ->
  result_equiv Value_equiv (call design_method c) (call design_method c').
Proof.
  intros H. destruct H; unfold call, single, parts.
  1, 2: unfold shear_strength_bolts, tensile_strength_bolts;
        eapply (bind_equiv Qeq);
        [ eapply (bind_equiv Qeq2);
          [apply nominal_fastener_strength_same; assumption |];
          intros [f_nv f_nt] [f_nv' f_nt'] [Hv Ht]; simpl in Hv, Ht;
          same_conversion; same_branches design_method
        | intros x y Hxy; exact Hxy ].
  7: { unfold weld_material_strength. eapply (bind_equiv Qeq).
       - same_conversion. same_branches design_method.
       - intros x y Hxy; exact Hxy. }
  all: unfold bearing_strength_bolts, tearout_strength_bolts,
         connected_elem_shear_yield_str, connected_elem_shear_rupture_str,
         connected_elem_tensile_yield_str,
         connected_elem_tensile_rupture_str.
  all: eapply (bind_equiv Qeq2);
         [| intros [r1 r2] [r1' r2'] [Hr1 Hr2]; simpl in Hr1, Hr2; split;
            assumption].
  all: repeat same_conversion.
  all: same_branches design_method.
Qed.

Lemma weld_material_strength_same (design_method : string) (weld_size : Q)
    (weld_length weld_length' : Quantity) (weld_sides : Z) :
  same_quantity weld_length weld_length' ->
  result_equiv Qeq
    (weld_material_strength design_method weld_size weld_length weld_sides)
    (weld_material_strength design_method weld_size weld_length' weld_sides).
Proof.
  intros H. unfold weld_material_strength.
  same_conversion. same_branches design_method.
Qed.

Lemma truediv_comp (a a' b b' : Q) :
  a == a' -> b == b' -> result_equiv Qeq (truediv a b) (truediv a' b').
Proof.
  intros Ha Hb. unfold truediv. rewrite Hb.
  destruct (Qeq_bool b' 0); cbv [result_equiv]; [reflexivity |].
  now rewrite Ha, Hb.
Qed.

Lemma bind_ok {A B : Type} (a : A) (k : A -> result B) :
  bind (Ok a) k = k a.
Proof. reflexivity. Qed.

Lemma weld_rupture_same (design_method : string) (weld_size : Q)
    (weld_sides : Z) (weld_length weld_length' part1_t part1_t'
     part1_ult part1_ult' part2_t part2_t' part2_ult part2_ult' : Quantity) :
  same_quantity weld_length weld_length' ->
  same_quantity part1_t part1_t' -> same_quantity part1_ult part1_ult' ->
  same_quantity part2_t part2_t' -> same_quantity part2_ult part2_ult' ->
  result_equiv Qeq
    (weld_rupture_strength design_method weld_size weld_length weld_sides
       part1_t part1_ult part2_t part2_ult)
    (weld_rupture_strength design_method weld_size weld_length' weld_sides
       part1_t' part1_ult' part2_t' part2_ult').
Proof.
  intros Hl Ht1 Hu1 Ht2 Hu2. unfold weld_rupture_strength.
  eapply (bind_equiv Qeq); [now apply same_quantity_to | intros l l' El].
  eapply (bind_equiv Qeq); [now apply same_quantity_to | intros t1 t1' Et1].
  eapply (bind_equiv Qeq); [now apply same_quantity_to | intros t2 t2' Et2].
  eapply (bind_equiv Qeq); [now apply same_quantity_to | intros u1 u1' Eu1].
  eapply (bind_equiv Qeq); [now apply same_quantity_to | intros u2 u2' Eu2].
  cbv zeta.
  eapply (bind_equiv (option_equiv Qeq2)).
  { destruct (weld_sides =? 1)%Z; [| destruct (weld_sides =? 2)%Z].
    3: exact I.
    all: eapply (bind_equiv Qeq);
           [apply truediv_comp; [reflexivity | now rewrite Eu1] |
            intros a a' Ea].
    all: eapply (bind_equiv Qeq);
           [apply truediv_comp; [reflexivity | now rewrite Eu2] |
            intros b b' Eb].
    all: split; assumption. }
  intros [[a b] |] [[a' b'] |] E; cbv [option_equiv] in E;
    try contradiction; cbv [option_map local fst snd]; [| reflexivity].
  destruct E as [Ea Eb]; simpl in Ea, Eb. rewrite !bind_ok.
  eapply (bind_equiv Qeq); [now apply truediv_comp | intros r1 r1' Er1].
  rewrite !bind_ok.
  eapply (bind_equiv Qeq); [now apply truediv_comp | intros r2 r2' Er2].
  eapply (bind_equiv Qeq);
    [apply weld_material_strength_same; now apply same_quantity_inches |
     intros w w' Ew].
  rewrite (Qltb_comp r1 r1' 1 1 Er1) by reflexivity.
  rewrite (Qltb_comp r2 r2' 1 1 Er2) by reflexivity.
  destruct (Qltb r1' 1 || Qltb r2' 1); cbv [result_equiv];
    [| assumption].
  rewrite (min_comp r1 r1' r2 r2' Er1 Er2). now rewrite Ew.
Qed.

Lemma min_weld_size_same (part1_t part1_t' part2_t part2_t' : Quantity) :
  same_quantity part1_t part1_t' -> same_quantity part2_t part2_t' ->
  min_weld_size part1_t part2_t = min_weld_size part1_t' part2_t'.
Proof.
  intros H1 H2.
  pose proof (same_quantity_compatible _ _ inch H1) as K1.
  pose proof (same_quantity_compatible _ _ inch H2) as K2.
  pose proof (same_quantity_magnitude _ _ inch H1) as M1.
  pose proof (same_quantity_magnitude _ _ inch H2) as M2.
  destruct (compatible part1_t' inch) eqn:D1;
    destruct (compatible part2_t' inch) eqn:D2.
  - rewrite (min_weld_size_step part1_t part2_t
               (Qmin (in_inch part1_t) (in_inch part2_t)) K1 K2)
      by reflexivity.
    rewrite (min_weld_size_step part1_t' part2_t'
               (Qmin (in_inch part1_t) (in_inch part2_t)) D1 D2).
    + reflexivity.
    + unfold in_inch. now rewrite M1, M2.
  - unfold min_weld_size, to. now rewrite K1, K2, D1, D2.
  - unfold min_weld_size, to. now rewrite K1, D1.
  - unfold min_weld_size, to. now rewrite K1, D1.
Qed.

(** A quantity of the wrong dimension makes the call raise. *)
Lemma call_dimension_error (design_method : string) (c : Call) :
  well_dimensioned c = false ->
  call design_method c = Raise DimensionalityError.
Proof.
  destruct c; simpl well_dimensioned; unfold is_length, is_stress;
    intros H; unfold call, single, parts; unfold_limit_states; unfold to.
  all: repeat match goal with
         | |- context [compatible ?q ?u] => destruct (compatible q u)
         end.
  all: try discriminate H.
  all: reflexivity.
Qed.

Lemma weld_rupture_dimension_error (design_method : string) (weld_size : Q)
    (weld_length : Quantity) (weld_sides : Z)
    (part1_t part1_ult part2_t part2_ult : Quantity) :
  is_length weld_length && is_length part1_t && is_stress part1_ult
  && is_length part2_t && is_stress part2_ult = false ->
  weld_rupture_strength design_method weld_size weld_length weld_sides
    part1_t part1_ult part2_t part2_ult = Raise DimensionalityError.
Proof.
  unfold is_length, is_stress, weld_rupture_strength, to. intros H.
  destruct (compatible weld_length inch); [| reflexivity].
  destruct (compatible part1_t inch); destruct (compatible part2_t inch);
    destruct (compatible part1_ult ksi); destruct (compatible part2_ult ksi);
    try discriminate H; reflexivity.
Qed.

Lemma min_weld_size_dimension_error (part1_t part2_t : Quantity) :
  is_length part1_t && is_length part2_t = false ->
  min_weld_size part1_t part2_t = Raise DimensionalityError.
Proof.
  unfold is_length, min_weld_size, to. intros H.
  destruct (compatible part1_t inch); destruct (compatible part2_t inch);
    try discriminate H; reflexivity.
Qed.

Lemma millimeters_inches :
  same_quantity (millimeters 19.05) (inches 0.75)
  /\ result_equiv Qeq
       (shear_strength_bolts "LRFD" (millimeters 19.05) (ksis 120))
       (shear_strength_bolts "LRFD" (inches 0.75) (ksis 120))
  /\ shear_strength_bolts "LRFD" (ksis 120) (ksis 120)
     = Raise DimensionalityError.
Proof.
  split; [split; [reflexivity | vm_compute; reflexivity] |].
  split; [vm_compute; reflexivity | reflexivity].
Qed.

(** In exact arithmetic, two calls of a limit-state function whose
    quantities express the same physical quantities in compatible units,
    the other arguments being equal, have the same outcome, since each
    quantity is used only through its magnitude in inch or ksi; and a call
    with a quantity of another dimension than the parameter expects raises
    a [DimensionalityError].  The first part is a fact of this model only:
    the source converts in binary64, where the same length given in two
    units need not convert to the same number. *)
Theorem unit_invariance :
  (forall (design_method : string) (c c' : Call),
      same_call c c' ->
      result_equiv Value_equiv (call design_method c)
        (call design_method c'))
  /\ (forall (design_method : string) (weld_size : Q) (weld_sides : Z)
             (weld_length weld_length' part1_t part1_t' part1_ult part1_ult'
              part2_t part2_t' part2_ult part2_ult' : Quantity),
      same_quantity weld_length weld_length' ->
      same_quantity part1_t part1_t' -> same_quantity part1_ult part1_ult' ->
      same_quantity part2_t part2_t' -> same_quantity part2_ult part2_ult' ->
      result_equiv Qeq
        (weld_rupture_strength design_method weld_size weld_length
           weld_sides part1_t part1_ult part2_t part2_ult)
        (weld_rupture_strength design_method weld_size weld_length'
           weld_sides part1_t' part1_ult' part2_t' part2_ult'))
  /\ (forall part1_t part1_t' part2_t part2_t' : Quantity,
      same_quantity part1_t part1_t' -> same_quantity part2_t part2_t' ->
      min_weld_size part1_t part2_t = min_weld_size part1_t' part2_t')
  /\ (forall (design_method : string) (c : Call),
      well_dimensioned c = false ->
      call design_method c = Raise DimensionalityError)
  /\ (forall (design_method : string) (weld_size : Q)
             (weld_length : Quantity) (weld_sides : Z)
             (part1_t part1_ult part2_t part2_ult : Quantity),
      is_length weld_length && is_length part1_t && is_stress part1_ult
      && is_length part2_t && is_stress part2_ult = false ->
      weld_rupture_strength design_method weld_size weld_length weld_sides
        part1_t part1_ult part2_t part2_ult = Raise DimensionalityError)
  /\ (forall part1_t part2_t : Quantity,
      is_length part1_t && is_length part2_t = false ->
      min_weld_size part1_t part2_t = Raise DimensionalityError).
Proof.
  split; [exact call_same |].
  split; [intros; now apply weld_rupture_same |].
  split; [intros; now apply min_weld_size_same |].
  split; [exact call_dimension_error |].
  split; [intros; now apply weld_rupture_dimension_error |].
  intros; now apply min_weld_size_dimension_error.
Qed.

(** ** C10: exchanging the two connected parts *)

Lemma call_exchange_parts (design_method : string) (c : Call) :
  call design_method (exchange_parts c)
  = rmap exchange_value (call design_method c).
Proof.
  destruct c; unfold exchange_parts, rmap, call, single, parts.
  all: unfold_limit_states; unfold to.
  all: repeat match goal with
         | |- context [compatible ?q ?u] => destruct (compatible q u)
         end.
  all: cbv [bind]; try reflexivity.
  all: destruct (design_method =? "ASD");
         [| destruct (design_method =? "LRFD")]; reflexivity.
Qed.

Lemma min_weld_size_exchange (part1_t part2_t : Quantity) :
  min_weld_size part1_t part2_t = min_weld_size part2_t part1_t.
Proof.
  destruct (is_length part1_t) eqn:H1; destruct (is_length part2_t) eqn:H2.
  - rewrite (min_weld_size_step part1_t part2_t
               (Qmin (in_inch part1_t) (in_inch part2_t)) H1 H2)
      by reflexivity.
    rewrite (min_weld_size_step part2_t part1_t
               (Qmin (in_inch part1_t) (in_inch part2_t)) H2 H1)
      by apply Q.min_comm.
    reflexivity.
  - unfold min_weld_size, to. unfold is_length in *. now rewrite H1, H2.
  - unfold min_weld_size, to. unfold is_length in *. now rewrite H1, H2.
  - unfold min_weld_size, to. unfold is_length in *. now rewrite H1, H2.
Qed.

Lemma weld_rupture_exchange (design_method : string) (weld_size : Q)
    (weld_length : Quantity) (weld_sides : Z)
    (part1_t part1_ult part2_t part2_ult : Quantity) :
  result_equiv Qeq
    (weld_rupture_strength design_method weld_size weld_length weld_sides
       part1_t part1_ult part2_t part2_ult)
    (weld_rupture_strength design_method weld_size weld_length weld_sides
       part2_t part2_ult part1_t part1_ult).
Proof.
  unfold weld_rupture_strength, to.
  destruct (compatible weld_length inch); [| reflexivity].
  destruct (compatible part1_t inch); destruct (compatible part2_t inch);
    destruct (compatible part1_ult ksi); destruct (compatible part2_ult ksi);
    cbv [bind]; try reflexivity.
  fold (in_inch weld_length) (in_inch part1_t) (in_inch part2_t)
       (in_ksi part1_ult) (in_ksi part2_ult).
  unfold truediv.
  destruct (weld_sides =? 1)%Z; [| destruct (weld_sides =? 2)%Z].
  3: reflexivity.
  all: repeat (match goal with
               | |- context [Qeq_bool ?a 0] => destruct (Qeq_bool a 0)
               end; cbv [bind option_map local fst snd]; try reflexivity).
  all: match goal with
       | |- context [weld_material_strength ?m ?s ?l ?n] =>
           destruct (weld_material_strength m s l n) as [w | e]
       end; try reflexivity.
  all: rewrite orb_comm.
  all: match goal with
       | |- context [Qltb ?r2 1 || Qltb ?r1 1] =>
           destruct (Qltb r2 1 || Qltb r1 1)
       end; cbv [result_equiv]; try reflexivity.
  all: now rewrite min_comm.
Qed.

(** C10.  Exchanging the part-1 and part-2 argument groups of a call
    exchanges the two components of the pair returned by bolt bearing, bolt
    tearout and element shear yield, shear rupture, tensile yield and
    tensile rupture, the shared arguments (method, diameter, bolt count,
    shear lag) being kept, and an exception stays the same; the
    single-valued [min_weld_size] and [weld_rupture_strength] return the
    same value under the exchange. *)
Theorem exchange_parts_equivariance :
  (forall (design_method : string) (c : Call),
      call design_method (exchange_parts c)
      = rmap exchange_value (call design_method c))
  /\ (forall part1_t part2_t : Quantity,
      min_weld_size part2_t part1_t = min_weld_size part1_t part2_t)
  /\ (forall (design_method : string) (weld_size : Q)
             (weld_length : Quantity) (weld_sides : Z)
             (part1_t part1_ult part2_t part2_ult : Quantity),
      result_equiv Qeq
        (weld_rupture_strength design_method weld_size weld_length
           weld_sides part2_t part2_ult part1_t part1_ult)
        (weld_rupture_strength design_method weld_size weld_length
           weld_sides part1_t part1_ult part2_t part2_ult)).
Proof.
  split; [exact call_exchange_parts |].
  split; [intros; apply min_weld_size_exchange |].
  intros. apply weld_rupture_exchange.
Qed.

(** ** The theorems at concrete inputs *)

(** The bearing example of the specification: 26.1 and 19.575 kip. *)
Lemma design_method_factors_witness :
  let c := BearingStrengthBolts (inches 0.75) (inches 0.5) (ksis 58)
                                (inches 0.375) (ksis 58) in
  well_dimensioned c = true
  /\ result_equiv Value_equiv (call "ASD" c)
       (Ok (vmap (fun rn => rn / Spec.asd_factor (limit_state c))
                 (nominal c)))
  /\ result_equiv Value_equiv (call "LRFD" c)
       (Ok (vmap (fun rn => rn * Spec.lrfd_factor (limit_state c))
                 (nominal c)))
  /\ Value_equiv
       (vmap (fun rn => rn / Spec.asd_factor (limit_state c)) (nominal c))
       (Parts 26.1 19.575).
Proof.
  intros c. split; [reflexivity |].
  destruct (design_method_factors c eq_refl) as [A L].
  split; [exact A |]. split; [exact L |].
  split; vm_compute; reflexivity.
Defined.

Lemma bolt_nominal_strength_witness :
  is_length (inches 0.75) = true /\ is_stress (ksis 120) = true
  /\ nominal_fastener_strength (ksis 120)
     = Ok (0.45 * in_ksi (ksis 120), 0.75 * in_ksi (ksis 120))
  /\ 0.45 * in_ksi (ksis 120) == 54.
Proof.
  split; [reflexivity |]. split; [reflexivity |].
  split; [| vm_compute; reflexivity].
  exact (proj1 (bolt_nominal_strength (inches 0.75) (ksis 120)
                  eq_refl eq_refl)).
Defined.

Lemma nonzero_4 : ~ 4 == 0.
Proof. intros H. vm_compute in H. discriminate H. Defined.

Lemma nonzero_58_ksi : ~ in_ksi (ksis 58) == 0.
Proof. intros H. vm_compute in H. discriminate H. Defined.

(** A 4/16 in weld on one side between two 10 in plates of 58 ksi: the
    weld metal governs. *)
Lemma weld_rupture_governing_witness :
  1 <= Spec.reduction 4 1 (in_inch (inches 10)) (in_ksi (ksis 58))
  /\ result_equiv Qeq
       (weld_rupture_strength "LRFD" 4 (inches 6) 1
          (inches 10) (ksis 58) (inches 10) (ksis 58))
       (weld_material_strength "LRFD" 4 (inches 6) 1).
Proof.
  assert (H : 1 <= Spec.reduction 4 1 (in_inch (inches 10))
                     (in_ksi (ksis 58)))
    by (vm_compute; discriminate).
  split; [exact H |].
  exact (proj1 (weld_rupture_governing "LRFD" 4 (inches 6) 1
                  (inches 10) (ksis 58) (inches 10) (ksis 58)
                  eq_refl eq_refl eq_refl eq_refl eq_refl
                  (or_introl eq_refl) nonzero_4
                  nonzero_58_ksi nonzero_58_ksi) H H).
Defined.

(** Eight 0.75 in bolts across a 6 in plate leave no net width. *)
Lemma rupture_net_area_witness :
  exists s1 s2 t1 t2 : Q,
    connected_elem_shear_rupture_str "ASD" (inches 0.75) 8
      (inches 0.5) (inches 6) (ksis 58) (inches 0.5) (inches 12) (ksis 58)
    = Ok (s1, s2)
    /\ connected_elem_tensile_rupture_str "ASD" (inches 0.75) 8 0.9
         (inches 0.5) (inches 6) (ksis 58) (inches 0.5) (inches 12) (ksis 58)
       = Ok (t1, t2)
    /\ s1 <= 0 /\ t1 <= 0.
Proof.
  destruct (rupture_net_area "ASD" (inches 0.75) 8 0.9
              (inches 0.5) (inches 6) (ksis 58)
              (inches 0.5) (inches 12) (ksis 58)
              (or_introl eq_refl)
              eq_refl eq_refl eq_refl eq_refl eq_refl eq_refl eq_refl)
    as (s1 & s2 & t1 & t2 & Hs & Ht & _ & _ & _ & _ & H1 & _).
  exists s1, s2, t1, t2. split; [exact Hs |]. split; [exact Ht |].
  apply H1.
  - split; vm_compute; [reflexivity | discriminate].
  - vm_compute; discriminate.
  - vm_compute; discriminate.
  - vm_compute; discriminate.
Defined.

Lemma invalid_design_method_raises_witness :
  call "XYZ" (ShearStrengthBolts (inches 0.75) (ksis 120))
  = Raise invalid_design_method
  /\ fails (weld_rupture_strength "XYZ" 4 (inches 6) 3
              (inches 10) (ksis 58) (inches 10) (ksis 58)).
Proof.
  assert (H1 : "XYZ" <> "ASD") by discriminate.
  assert (H2 : "XYZ" <> "LRFD") by discriminate.
  destruct (invalid_design_method_raises "XYZ" H1 H2) as (_ & A & B & _).
  split; [apply A; reflexivity | apply B].
Defined.


Lemma min_weld_size_brackets_witness :
  min_weld_size (inches 0.25) (inches 1) = Ok (Some 0.1875)
  /\ min_weld_size (inches 0.75) (inches 0.75) = Ok (Some 0.3125).
Proof.
  split.
  - destruct (min_weld_size_brackets (inches 0.25) (inches 1)
                eq_refl eq_refl) as (_ & _ & _ & _ & H & _).
    apply H. vm_compute. reflexivity.
  - destruct (min_weld_size_brackets (inches 0.75) (inches 0.75)
                eq_refl eq_refl) as (_ & _ & _ & _ & _ & H).
    apply H. vm_compute. reflexivity.
Defined.

Lemma min_weld_size_negative_witness :
  min_weld_size (inches (-0.5)) (millimeters 10) = Ok (Some 0.1250).
Proof.
  apply (min_weld_size_negative (inches (-0.5)) (millimeters 10)
           eq_refl eq_refl).
  vm_compute. reflexivity.
Defined.

(** A diameter of 19.05 mm is one of 0.75 in. *)
Lemma unit_invariance_witness :
  result_equiv Value_equiv
    (call "LRFD" (ShearStrengthBolts (millimeters 19.05) (ksis 120)))
    (call "LRFD" (ShearStrengthBolts (inches 0.75) (ksis 120)))
  /\ call "LRFD" (ShearStrengthBolts (ksis 120) (ksis 120))
     = Raise DimensionalityError.
Proof.
  destruct unit_invariance as (A & _ & _ & B & _).
  split.
  - apply A. constructor.
    + split; [reflexivity | vm_compute; reflexivity].
    + split; reflexivity.
  - apply B. reflexivity.
Defined.

Lemma exchange_parts_equivariance_witness :
  call "ASD" (BearingStrengthBolts (inches 0.75) (inches 0.375) (ksis 58)
                                   (inches 0.5) (ksis 65))
  = rmap exchange_value
      (call "ASD" (BearingStrengthBolts (inches 0.75) (inches 0.5) (ksis 65)
                                        (inches 0.375) (ksis 58))).
Proof.
  exact (proj1 exchange_parts_equivariance "ASD"
           (BearingStrengthBolts (inches 0.75) (inches 0.5) (ksis 65)
                                 (inches 0.375) (ksis 58))).
Defined.

(** * Further properties of the source *)

(** ** How the results of the functions relate *)

(** X1.  For each of the nine functions and all arguments, the LRFD result
    is the ASD result times a fixed number: 1.5 (0.75 * 2.00, and
    1.00 * 1.50 for shear yield), except 1.503 (0.90 * 1.67) for tensile
    yield; when the ASD call raises, the LRFD call raises the same. *)
Theorem lrfd_is_scaled_asd (c : Call) :
  result_equiv Value_equiv (call "LRFD" c)
    (rmap (vmap (Qmult (lrfd_over_asd c))) (call "ASD" c)).
Proof.
  destruct c; unfold rmap, call, single, parts, lrfd_over_asd.
  all: unfold_limit_states; unfold to.
  all: repeat match goal with
         | |- context [compatible ?q ?u] => destruct (compatible q u)
         end.
  all: cbv [bind]; try reflexivity.
  all: rewrite design_method_asd; destruct design_method_lrfd as [-> ->].
  all: cbv [result_equiv Value_equiv vmap]; repeat split; field.
Qed.

(** X2.  For every method, diameter and stress,
    [tensile_strength_bolts] is 5/3 of [shear_strength_bolts] (0.75 f_u
    against 0.45 f_u), and the two raise the same exceptions. *)
Theorem bolt_tension_to_shear (design_method : string)
    (bolt_dia f_u : Quantity) :
  result_equiv Qeq (tensile_strength_bolts design_method bolt_dia f_u)
    (rmap (Qmult (5 / 3)) (shear_strength_bolts design_method bolt_dia f_u)).
Proof.
  unfold rmap, shear_strength_bolts, tensile_strength_bolts,
    nominal_fastener_strength, to.
  destruct (compatible f_u ksi); [| reflexivity].
  destruct (compatible bolt_dia inch); [| reflexivity].
  cbv [bind].
  destruct (design_method =? "ASD"); [| destruct (design_method =? "LRFD")].
  all: cbv [result_equiv]; try reflexivity; field.
Qed.

(** X3.  [connected_elem_shear_rupture_str] is
    [connected_elem_tensile_rupture_str] with a shear lag of 0.60: for all
    arguments the two have the same outcome. *)
Theorem shear_rupture_is_tensile_rupture (design_method : string)
    (bolt_dia : Quantity) (bolt_count : Z)
    (part1_t part1_len part1_ult part2_t part2_len part2_ult : Quantity) :
  result_equiv Qeq2
    (connected_elem_shear_rupture_str design_method bolt_dia bolt_count
       part1_t part1_len part1_ult part2_t part2_len part2_ult)
    (connected_elem_tensile_rupture_str design_method bolt_dia bolt_count
       0.60 part1_t part1_len part1_ult part2_t part2_len part2_ult).
Proof.
  unfold connected_elem_shear_rupture_str,
    connected_elem_tensile_rupture_str, to.
  repeat match goal with
         | |- context [compatible ?q ?u] => destruct (compatible q u)
         end.
  all: cbv [bind]; try reflexivity.
  all: destruct (design_method =? "ASD");
         [| destruct (design_method =? "LRFD")].
  all: cbv [result_equiv Qeq2 fst snd]; try reflexivity; split; field.
Qed.

(** ** Bolt tearout against bolt bearing *)

Lemma half (x : Q) : x / 2.00 == 0.5 * x.
Proof. field. Qed.

Lemma clear_distance (e d : Q) : e - (d + 0.125) / 2 == e - 0.5 * d - 0.0625.
Proof. field. Qed.

Lemma tearout_le_bearing_nominal (net d t u : Q) :
  0 < t -> 0 < u ->
  (1.2 * net * t * u <= 2.4 * d * t * u <-> net <= 2 * d).
Proof.
  intros Ht Hu. assert (Htu : 0 < t * u) by nra. split; intros H.
  - destruct (Qlt_le_dec (2 * d) net) as [L | L]; [| exact L].
    assert (0 < (net - 2 * d) * (t * u)) by nra. nra.
  - assert (0 <= (2 * d - net) * (t * u)) by nra. nra.
Qed.

(** X4.  With a valid method, quantities of the expected dimensions and a
    positive thickness and stress, the tearout strength of a part is at
    most its bearing strength exactly when the clear distance
    edge_dist - (dia + 0.125)/2 is at most twice the bolt diameter. *)
Theorem tearout_governs_iff (design_method : string)
    (bolt_dia part1_edge_dist part2_edge_dist
     part1_t part1_ult part2_t part2_ult : Quantity) :
  design_method = "ASD" \/ design_method = "LRFD" ->
  is_length bolt_dia = true ->
  is_length part1_edge_dist = true -> is_length part2_edge_dist = true ->
  is_length part1_t = true -> is_stress part1_ult = true ->
  is_length part2_t = true -> is_stress part2_ult = true ->
  0 < in_inch part1_t -> 0 < in_ksi part1_ult ->
  0 < in_inch part2_t -> 0 < in_ksi part2_ult ->
  exists tearout1 tearout2 bearing1 bearing2 : Q,
    tearout_strength_bolts design_method bolt_dia part1_edge_dist
      part2_edge_dist part1_t part1_ult part2_t part2_ult
    = Ok (tearout1, tearout2)
    /\ bearing_strength_bolts design_method bolt_dia
         part1_t part1_ult part2_t part2_ult = Ok (bearing1, bearing2)
    /\ (tearout1 <= bearing1 <->
        in_inch part1_edge_dist - (in_inch bolt_dia + 0.125) / 2
        <= 2 * in_inch bolt_dia)
    /\ (tearout2 <= bearing2 <->
        in_inch part2_edge_dist - (in_inch bolt_dia + 0.125) / 2
        <= 2 * in_inch bolt_dia).
Proof.
  intros Hm Hd He1 He2 Ht1 Hu1 Ht2 Hu2 P1 Q1 P2 Q2. split_dims.
  unfold tearout_strength_bolts, bearing_strength_bolts. convert.
  fold (in_inch bolt_dia) (in_inch part1_edge_dist)
       (in_inch part2_edge_dist) (in_inch part1_t) (in_inch part2_t)
       (in_ksi part1_ult) (in_ksi part2_ult).
  cbv zeta.
  pose proof (tearout_le_bearing_nominal
                (in_inch part1_edge_dist - (in_inch bolt_dia + 0.125) / 2)
                (in_inch bolt_dia) _ _ P1 Q1) as E1.
  pose proof (tearout_le_bearing_nominal
                (in_inch part2_edge_dist - (in_inch bolt_dia + 0.125) / 2)
                (in_inch bolt_dia) _ _ P2 Q2) as E2.
  destruct Hm as [-> | ->];
    [rewrite design_method_asd | destruct design_method_lrfd as [-> ->]].
  all: do 4 eexists; split; [reflexivity |]; split; [reflexivity |].
  all: rewrite <- E1, <- E2; rewrite ?half; split; split; lra.
Qed.

(** X5.  With a valid method, quantities of the expected dimensions and a
    non-negative thickness and stress, a part whose edge distance is at
    most (dia + 0.125)/2 gets a tearout strength that is not positive; no
    exception is raised. *)
Theorem tearout_short_edge (design_method : string)
    (bolt_dia part1_edge_dist part2_edge_dist
     part1_t part1_ult part2_t part2_ult : Quantity) :
  design_method = "ASD" \/ design_method = "LRFD" ->
  is_length bolt_dia = true ->
  is_length part1_edge_dist = true -> is_length part2_edge_dist = true ->
  is_length part1_t = true -> is_stress part1_ult = true ->
  is_length part2_t = true -> is_stress part2_ult = true ->
  0 <= in_inch part1_t -> 0 <= in_ksi part1_ult ->
  0 <= in_inch part2_t -> 0 <= in_ksi part2_ult ->
  exists tearout1 tearout2 : Q,
    tearout_strength_bolts design_method bolt_dia part1_edge_dist
      part2_edge_dist part1_t part1_ult part2_t part2_ult
    = Ok (tearout1, tearout2)
    /\ (in_inch part1_edge_dist <= (in_inch bolt_dia + 0.125) / 2 ->
        tearout1 <= 0)
    /\ (in_inch part2_edge_dist <= (in_inch bolt_dia + 0.125) / 2 ->
        tearout2 <= 0).
Proof.
  intros Hm Hd He1 He2 Ht1 Hu1 Ht2 Hu2 P1 Q1 P2 Q2. split_dims.
  unfold tearout_strength_bolts. convert.
  fold (in_inch bolt_dia) (in_inch part1_edge_dist)
       (in_inch part2_edge_dist) (in_inch part1_t) (in_inch part2_t)
       (in_ksi part1_ult) (in_ksi part2_ult).
  cbv zeta.
  assert (S : forall net t u : Q,
             0 <= t -> 0 <= u -> net <= 0 -> 1.2 * net * t * u <= 0).
  { intros net t u Ht Hu Hn. assert (0 <= t * u) by nra.
    assert (0 <= (- net) * (t * u)) by (apply Qmult_le_0_compat; lra).
    nra. }
  destruct Hm as [-> | ->];
    [rewrite design_method_asd | destruct design_method_lrfd as [-> ->]].
  all: do 2 eexists; split; [reflexivity |].
  all: split; intros H; rewrite ?half.
  all: match goal with
       | |- context [1.2 * ?net * ?t * ?u] =>
           assert (1.2 * net * t * u <= 0) by (apply S; lra)
       end; lra.
Qed.

(** ** Fillet welds: sides, zero divisors, base metal *)


Lemma Qeq_bool_false (x : Q) : Qeq_bool x 0 = false -> ~ x == 0.
Proof. intros H E. apply Qeq_bool_iff in E. congruence. Qed.

(** X7.  On quantities of the expected dimensions and with [weld_sides] 1
    or 2, [weld_rupture_strength] raises [ZeroDivisionError] when the weld
    size or the ultimate stress of either part is zero, whatever the
    design method is, valid or not. *)
Theorem weld_rupture_zero_division (design_method : string) (weld_size : Q)
    (weld_length : Quantity) (weld_sides : Z)
    (part1_t part1_ult part2_t part2_ult : Quantity) :
  is_length weld_length = true ->
  is_length part1_t = true -> is_stress part1_ult = true ->
  is_length part2_t = true -> is_stress part2_ult = true ->
  weld_sides = 1%Z \/ weld_sides = 2%Z ->
  weld_size == 0 \/ in_ksi part1_ult == 0 \/ in_ksi part2_ult == 0 ->
  weld_rupture_strength design_method weld_size weld_length weld_sides
    part1_t part1_ult part2_t part2_ult = Raise ZeroDivisionError.
Proof.
  intros Hl Ht1 Hu1 Ht2 Hu2 Hsides Hzero. split_dims.
  unfold weld_rupture_strength. convert.
  fold (in_inch weld_length) (in_inch part1_t) (in_inch part2_t)
       (in_ksi part1_ult) (in_ksi part2_ult).
  cbv zeta.
  assert (Hbranch : (if (weld_sides =? 1)%Z then true
                     else if (weld_sides =? 2)%Z then true else false)
                    = true)
    by (destruct Hsides as [-> | ->]; reflexivity).
  destruct (Qeq_bool (0.6 * in_ksi part1_ult) 0) eqn:A.
  { apply Qeq_bool_iff in A.
    destruct (weld_sides =? 1)%Z; [| destruct (weld_sides =? 2)%Z];
      try discriminate Hbranch.
    all: rewrite (truediv_zero _ _ A); reflexivity. }
  apply Qeq_bool_false in A.
  destruct (Qeq_bool (0.6 * in_ksi part2_ult) 0) eqn:B.
  { apply Qeq_bool_iff in B.
    destruct (weld_sides =? 1)%Z; [| destruct (weld_sides =? 2)%Z];
      try discriminate Hbranch.
    all: rewrite (truediv_nonzero _ _ A), (truediv_zero _ _ B);
      reflexivity. }
  apply Qeq_bool_false in B.
  destruct Hzero as [Hs | [Hu | Hu]].
  2: exfalso; apply A; rewrite Hu; reflexivity.
  2: exfalso; apply B; rewrite Hu; reflexivity.
  destruct (weld_sides =? 1)%Z; [| destruct (weld_sides =? 2)%Z];
    try discriminate Hbranch.
  all: rewrite (truediv_nonzero _ _ A), (truediv_nonzero _ _ B).
  all: rewrite !bind_ok; cbv [option_map local fst snd]; rewrite bind_ok.
  all: rewrite truediv_zero; [reflexivity |].
  all: rewrite Hs; field; intros E; apply A; rewrite E; reflexivity.
Qed.

Lemma weld_material_strength_returns (design_method : string)
    (weld_size : Q) (weld_length : Quantity) (weld_sides : Z) :
  design_method = "ASD" \/ design_method = "LRFD" ->
  is_length weld_length = true ->
  let r_n := 0.60 * 70 * (math_sqrt2 / 2) * (weld_size / 16)
             * in_inch weld_length * inject_Z weld_sides in
  weld_material_strength design_method weld_size weld_length weld_sides
  = Ok (if design_method =? "ASD" then r_n / 2.00 else 0.75 * r_n).
Proof.
  intros Hm Hl r_n. split_dims. unfold weld_material_strength. convert.
  destruct Hm as [-> | ->];
    [rewrite design_method_asd | destruct design_method_lrfd as [-> ->]];
    reflexivity.
Qed.

Lemma weld_nominal_nonnegative (weld_size weld_length : Q) (weld_sides : Z) :
  0 <= weld_size -> 0 <= weld_length -> (0 <= weld_sides)%Z ->
  0 <= 0.60 * 70 * (math_sqrt2 / 2) * (weld_size / 16)
       * weld_length * inject_Z weld_sides.
Proof.
  intros Hs Hl Hn.
  assert (Hk : 0 <= inject_Z weld_sides)
    by (change 0 with (inject_Z 0); rewrite <- Zle_Qle; exact Hn).
  setoid_replace (0.60 * 70 * (math_sqrt2 / 2) * (weld_size / 16)
                  * weld_length * inject_Z weld_sides)
    with (0.60 * 70 * math_sqrt2 * (1 / 32)
          * (weld_size * (weld_length * inject_Z weld_sides)))
    by field.
  apply Qmult_le_0_compat; [vm_compute; discriminate |].
  apply Qmult_le_0_compat; [assumption |].
  apply Qmult_le_0_compat; assumption.
Qed.

(** X8.  With a valid method, quantities of the expected dimensions,
    [weld_sides] 1 or 2, a positive weld size, a non-negative weld length
    and non-zero ultimate stresses, [weld_rupture_strength] returns at most
    what [weld_material_strength] returns for the same weld: the base
    metal can only reduce the strength. *)
Theorem weld_rupture_at_most_material (design_method : string)
    (weld_size : Q) (weld_length : Quantity) (weld_sides : Z)
    (part1_t part1_ult part2_t part2_ult : Quantity) :
  design_method = "ASD" \/ design_method = "LRFD" ->
  is_length weld_length = true ->
  is_length part1_t = true -> is_stress part1_ult = true ->
  is_length part2_t = true -> is_stress part2_ult = true ->
  weld_sides = 1%Z \/ weld_sides = 2%Z ->
  0 < weld_size -> 0 <= in_inch weld_length ->
  ~ in_ksi part1_ult == 0 -> ~ in_ksi part2_ult == 0 ->
  exists rupture material : Q,
    weld_rupture_strength design_method weld_size weld_length weld_sides
      part1_t part1_ult part2_t part2_ult = Ok rupture
    /\ weld_material_strength design_method weld_size weld_length
         weld_sides = Ok material
    /\ rupture <= material.
Proof.
  intros Hm Hl Ht1 Hu1 Ht2 Hu2 Hsides Hs Hlen Hn1 Hn2.
  assert (Hs' : ~ weld_size == 0) by lra.
  rewrite weld_rupture_strength_valid by assumption. cbv zeta.
  pose proof (weld_material_strength_inches design_method weld_size
                weld_length weld_sides Hl) as Hw.
  rewrite (weld_material_strength_returns _ _ weld_length _ Hm Hl) in *.
  cbv zeta in *.
  set (r_n := 0.60 * 70 * (math_sqrt2 / 2) * (weld_size / 16)
              * in_inch weld_length * inject_Z weld_sides) in *.
  assert (Hrn : 0 <= r_n).
  { apply weld_nominal_nonnegative; [lra | assumption |].
    destruct Hsides as [-> | ->]; discriminate. }
  set (material := if design_method =? "ASD" then r_n / 2.00
                   else 0.75 * r_n) in *.
  assert (Hmat : 0 <= material).
  { unfold material. destruct (design_method =? "ASD");
      [rewrite half |]; lra. }
  destruct (weld_material_strength design_method weld_size
              (inches (in_inch weld_length)) weld_sides) as [w | e];
    cbv [result_equiv] in Hw; [| contradiction].
  rewrite bind_ok.
  match goal with
  | |- context [Qltb ?r1 1 || Qltb ?r2 1] =>
      set (reduction_1 := r1); set (reduction_2 := r2)
  end.
  destruct (Qltb reduction_1 1) eqn:L1; [| destruct (Qltb reduction_2 1) eqn:L2];
    cbv [orb]; do 2 eexists; (split; [reflexivity |]);
    (split; [reflexivity |]).
  - apply Qltb_true in L1.
    pose proof (min_spec reduction_1 reduction_2) as Em.
    pose proof (Q.le_min_l reduction_1 reduction_2).
    assert (0 <= w * (1 - min reduction_1 reduction_2))
      by (apply Qmult_le_0_compat; lra).
    lra.
  - apply Qltb_true in L2.
    pose proof (min_spec reduction_1 reduction_2) as Em.
    pose proof (Q.le_min_r reduction_1 reduction_2).
    assert (0 <= w * (1 - min reduction_1 reduction_2))
      by (apply Qmult_le_0_compat; lra).
    lra.
  - lra.
Qed.

Lemma Qmin_div (a b k : Q) : 0 < k -> Qmin (a / k) (b / k) == Qmin a b / k.
Proof.
  intros Hk. unfold Qdiv.
  assert (Hi : 0 < / k) by now apply Qinv_lt_0_compat.
  set (i := / k) in *.
  destruct (Q.min_spec (a * i) (b * i)) as [[H ->] | [H ->]];
    destruct (Q.min_spec a b) as [[H' ->] | [H' ->]];
    try reflexivity; nra.
Qed.

Lemma Qdiv_lt_1 (a k : Q) : 0 < k -> (a / k < 1 <-> a < k).
Proof.
  intros Hk.
  assert (E : a / k * k == a) by (field; lra).
  split; intros H.
  - assert (0 < (1 - a / k) * k) by (apply Qmult_lt_0_compat; lra). lra.
  - apply Qlt_shift_div_r; [exact Hk | lra].
Qed.

(** X9.  With a valid method, quantities of the expected dimensions,
    [weld_sides] 1 or 2, a positive weld size and non-zero stresses: when
    0.6 * fu * t of either part is below the weld strength per length,
    sides * 0.60 * 70 * 0.707 * size/16, the result is the design-method
    factor applied to
    ((sqrt 2 / 2) / 0.707) * weld_length * min(0.6 fu1 t1, 0.6 fu2 t2).
    It depends neither on the weld size nor on the number of sides, and the
    two throat constants of the source do not cancel. *)
Theorem weld_rupture_base_metal (design_method : string)
    (weld_size : Q) (weld_length : Quantity) (weld_sides : Z)
    (part1_t part1_ult part2_t part2_ult : Quantity) :
  design_method = "ASD" \/ design_method = "LRFD" ->
  is_length weld_length = true ->
  is_length part1_t = true -> is_stress part1_ult = true ->
  is_length part2_t = true -> is_stress part2_ult = true ->
  weld_sides = 1%Z \/ weld_sides = 2%Z ->
  0 < weld_size ->
  ~ in_ksi part1_ult == 0 -> ~ in_ksi part2_ult == 0 ->
  let weld := inject_Z weld_sides * (0.60 * 70 * (0.707 * (weld_size / 16))) in
  let base_1 := 0.6 * in_ksi part1_ult * in_inch part1_t in
  let base_2 := 0.6 * in_ksi part2_ult * in_inch part2_t in
  let r_n := math_sqrt2 / 2 / 0.707
             * (in_inch weld_length * Qmin base_1 base_2) in
  base_1 < weld \/ base_2 < weld ->
  exists rupture : Q,
    weld_rupture_strength design_method weld_size weld_length weld_sides
      part1_t part1_ult part2_t part2_ult = Ok rupture
    /\ rupture == (if design_method =? "ASD" then r_n / 2.00
                   else 0.75 * r_n).
Proof.
  intros Hm Hl Ht1 Hu1 Ht2 Hu2 Hsides Hs Hn1 Hn2 weld base_1 base_2 r_n Hb.
  assert (Hs' : ~ weld_size == 0) by lra.
  rewrite weld_rupture_strength_valid by assumption. cbv zeta.
  assert (Hweld : 0 < weld).
  { unfold weld.
    setoid_replace (inject_Z weld_sides
                    * (0.60 * 70 * (0.707 * (weld_size / 16))))
      with (inject_Z weld_sides * (0.60 * 70 * 0.707 * (1 / 16))
            * weld_size) by field.
    apply Qmult_lt_0_compat; [| exact Hs].
    destruct Hsides as [-> | ->]; vm_compute; reflexivity. }
  assert (E : forall t fu : Q, ~ fu == 0 ->
            t / ((if (weld_sides =? 1)%Z
                  then 0.60 * 70 * (0.707 * (weld_size / 16))
                  else 2 * (0.60 * 70 * (0.707 * (weld_size / 16))))
                 / (0.6 * fu))
            == 0.6 * fu * t / weld).
  { intros t fu Hfu. unfold weld.
    destruct Hsides as [-> | ->].
    - change ((1 =? 1)%Z) with true. change (inject_Z 1) with 1. cbv iota.
      field. split; assumption.
    - change ((2 =? 1)%Z) with false. change (inject_Z 2) with 2. cbv iota.
      field. split; assumption. }
  pose proof (E (in_inch part1_t) _ Hn1) as E1.
  pose proof (E (in_inch part2_t) _ Hn2) as E2.
  fold base_1 in E1. fold base_2 in E2.
  match goal with
  | |- context [Qltb ?r1 1 || Qltb ?r2 1] =>
      set (reduction_1 := r1) in *; set (reduction_2 := r2) in *
  end.
  assert (Hor : Qltb reduction_1 1 || Qltb reduction_2 1 = true).
  { apply orb_true_iff.
    destruct Hb as [Hb | Hb]; [left | right]; apply Qltb_true.
    - rewrite E1. now apply Qdiv_lt_1.
    - rewrite E2. now apply Qdiv_lt_1. }
  rewrite Hor.
  assert (Emin : min reduction_1 reduction_2 == Qmin base_1 base_2 / weld).
  { rewrite min_spec, E1, E2. now apply Qmin_div. }
  unfold weld_material_strength.
  destruct (to_inches (in_inch weld_length)) as (y & -> & Hy).
  rewrite bind_ok.
  destruct Hm as [-> | ->];
    [rewrite design_method_asd | destruct design_method_lrfd as [-> ->]].
  all: rewrite bind_ok; eexists; split; [reflexivity |].
  all: rewrite Emin, Hy; unfold r_n, weld; field.
  all: split; [exact Hs' |].
  all: destruct Hsides as [-> | ->]; intros Z0; vm_compute in Z0;
         discriminate Z0.
Qed.

(** ** Minimum weld size: monotonicity *)

Lemma step_monotone (a b : Q) :
  a <= b -> Spec.min_weld_size a <= Spec.min_weld_size b.
Proof.
  intros H. unfold Spec.min_weld_size.
  destruct (Qltb a 0.25) eqn:A1; destruct (Qltb b 0.25) eqn:B1;
    destruct (Qltb a 0.5) eqn:A2; destruct (Qltb b 0.5) eqn:B2;
    destruct (Qltb a 0.75) eqn:A3; destruct (Qltb b 0.75) eqn:B3.
  all: try (vm_compute; discriminate).
  all: exfalso.
  all: repeat match goal with
         | H : Qltb _ _ = true |- _ => apply Qltb_true in H
         | H : Qltb _ _ = false |- _ => apply Qltb_false in H
         end.
  all: lra.
Qed.

(** X10.  [min_weld_size] is monotone: on lengths, if neither part gets
    thinner, the returned size does not get smaller. *)
Theorem min_weld_size_monotone (part1_t part2_t part1_t' part2_t' : Quantity) :
  is_length part1_t = true -> is_length part2_t = true ->
  is_length part1_t' = true -> is_length part2_t' = true ->
  in_inch part1_t <= in_inch part1_t' ->
  in_inch part2_t <= in_inch part2_t' ->
  exists size size' : Q,
    min_weld_size part1_t part2_t = Ok (Some size)
    /\ min_weld_size part1_t' part2_t' = Ok (Some size')
    /\ size <= size'.
Proof.
  intros H1 H2 H1' H2' L1 L2.
  do 2 eexists.
  split; [apply min_weld_size_step; [assumption | assumption | reflexivity] |].
  split; [apply min_weld_size_step; [assumption | assumption | reflexivity] |].
  apply step_monotone.
  apply Q.min_glb.
  - eapply Qle_trans; [apply Q.le_min_l | exact L1].
  - eapply Qle_trans; [apply Q.le_min_r | exact L2].
Qed.

(** ** Two-part functions: the parts do not interact *)

(** X11.  In the six two-part functions the strength returned for part 1
    does not depend on the values given for part 2, as long as those are
    quantities of the expected dimensions: no minimum over the parts is
    taken. *)
Theorem part1_independent_of_part2 (design_method : string) (c c' : Call) :
  part1_agree c c' ->
  well_dimensioned c = true -> well_dimensioned c' = true ->
  rmap first_part (call design_method c)
  = rmap first_part (call design_method c').
Proof.
  intros Hagree. destruct Hagree; simpl well_dimensioned; intros H H';
    split_dims.
  all: unfold rmap, call, single, parts; unfold_limit_states; convert.
  all: destruct (design_method =? "ASD");
         [| destruct (design_method =? "LRFD")]; reflexivity.
Qed.

(** ** The sign of the bolt diameter *)

(** X12.  [shear_strength_bolts] and [tensile_strength_bolts] do not check
    the sign of the diameter: for every method and stress a negated
    diameter has the same outcome, the same strength or the same
    exception, since the diameter enters only as [bolt_dia ** 2]. *)
Theorem bolt_strength_negated_diameter (design_method : string)
    (bolt_dia f_u : Quantity) :
  result_equiv Qeq
    (shear_strength_bolts design_method (negated bolt_dia) f_u)
    (shear_strength_bolts design_method bolt_dia f_u)
  /\ result_equiv Qeq
    (tensile_strength_bolts design_method (negated bolt_dia) f_u)
    (tensile_strength_bolts design_method bolt_dia f_u).
Proof.
  unfold shear_strength_bolts, tensile_strength_bolts,
    nominal_fastener_strength, to.
  change (compatible (negated bolt_dia) inch)
    with (compatible bolt_dia inch).
  destruct (compatible f_u ksi); [| split; reflexivity].
  destruct (compatible bolt_dia inch); [| split; reflexivity].
  cbv [bind].
  assert (Ed : magnitude_in inch (negated bolt_dia) ^ 2
               == magnitude_in inch bolt_dia ^ 2)
    by (unfold magnitude_in, negated; simpl; ring).
  destruct (design_method =? "ASD"); [| destruct (design_method =? "LRFD")].
  all: cbv [result_equiv]; split.
  all: match goal with
       | |- _ == _ => rewrite Ed; reflexivity
       | |- _ = _ => reflexivity
       end.
Qed.

(** ** Bolt holes in the rupture strengths *)

(** X13.  With a valid method, quantities of the expected dimensions and a
    bolt count of magnitude below 2^53 (an integer a float holds exactly;
    its sign is not checked, and a negative one adds width),
    [connected_elem_tensile_rupture_str] with no bolt is the design-method
    factor applied to fu * t * len * shear_lag, and one more bolt lowers
    the strength of each part by the factor applied to
    fu * t * (dia + 0.063) * shear_lag. *)
Theorem tensile_rupture_per_bolt (design_method : string)
    (bolt_dia : Quantity) (bolt_count : Z) (shear_lag : Q)
    (part1_t part1_len part1_ult part2_t part2_len part2_ult : Quantity) :
  design_method = "ASD" \/ design_method = "LRFD" ->
  is_length bolt_dia = true ->
  is_length part1_t = true -> is_length part1_len = true ->
  is_stress part1_ult = true ->
  is_length part2_t = true -> is_length part2_len = true ->
  is_stress part2_ult = true ->
  (Z.abs bolt_count < 2 ^ 53)%Z ->
  let factor (rn : Q) : Q :=
    if design_method =? "ASD" then rn / 2.00 else 0.75 * rn in
  let hole := in_inch bolt_dia + 0.063 in
  exists g1 g2 a1 a2 b1 b2 : Q,
    connected_elem_tensile_rupture_str design_method bolt_dia 0
      shear_lag part1_t part1_len part1_ult part2_t part2_len part2_ult
    = Ok (g1, g2)
    /\ connected_elem_tensile_rupture_str design_method bolt_dia bolt_count
      shear_lag part1_t part1_len part1_ult part2_t part2_len part2_ult
    = Ok (a1, a2)
    /\ connected_elem_tensile_rupture_str design_method bolt_dia
      (bolt_count + 1)
      shear_lag part1_t part1_len part1_ult part2_t part2_len part2_ult
    = Ok (b1, b2)
    /\ g1 == factor (in_ksi part1_ult * in_inch part1_t * in_inch part1_len
                     * shear_lag)
    /\ g2 == factor (in_ksi part2_ult * in_inch part2_t * in_inch part2_len
                     * shear_lag)
    /\ b1 == a1 - factor (in_ksi part1_ult * in_inch part1_t * hole
                          * shear_lag)
    /\ b2 == a2 - factor (in_ksi part2_ult * in_inch part2_t * hole
                          * shear_lag).
Proof.
  intros Hm Hd Ht1 Hl1 Hu1 Ht2 Hl2 Hu2 Hcount. split_dims.
  unfold connected_elem_tensile_rupture_str. convert.
  fold (in_inch bolt_dia) (in_inch part1_t) (in_inch part2_t)
       (in_inch part1_len) (in_inch part2_len)
       (in_ksi part1_ult) (in_ksi part2_ult).
  cbv zeta.
  pose proof (inject_Z_plus bolt_count 1) as Hn.
  change (inject_Z 1) with 1 in Hn. change (inject_Z 0) with 0.
  destruct Hm as [-> | ->];
    [rewrite design_method_asd | destruct design_method_lrfd as [-> ->]].
  all: do 6 eexists; do 3 (split; [reflexivity |]).
  all: rewrite Hn; repeat split; field.
Qed.

(** ** Shear yield against tensile yield *)

(** X14.  For all arguments, [connected_elem_shear_yield_str] is a fixed
    fraction of [connected_elem_tensile_yield_str]: 0.668
    (0.60 * 1.67 / 1.50) under ASD and 2/3 (0.60 * 1.00 / 0.90) under
    LRFD, for both parts, with the same exceptions. *)
Theorem shear_yield_to_tensile_yield
    (part1_t part1_len part1_yield part2_t part2_len part2_yield : Quantity) :
  result_equiv Value_equiv
    (call "ASD" (ShearYieldStr part1_t part1_len part1_yield
                               part2_t part2_len part2_yield))
    (rmap (vmap (Qmult 0.668))
       (call "ASD" (TensileYieldStr part1_t part1_len part1_yield
                                    part2_t part2_len part2_yield)))
  /\ result_equiv Value_equiv
    (call "LRFD" (ShearYieldStr part1_t part1_len part1_yield
                                part2_t part2_len part2_yield))
    (rmap (vmap (Qmult (2 / 3)))
       (call "LRFD" (TensileYieldStr part1_t part1_len part1_yield
                                     part2_t part2_len part2_yield))).
Proof.
  unfold rmap, call, parts, connected_elem_shear_yield_str,
    connected_elem_tensile_yield_str, to.
  repeat match goal with
         | |- context [compatible ?q ?u] => destruct (compatible q u)
         end.
  all: cbv [bind]; try (split; reflexivity).
  rewrite design_method_asd. destruct design_method_lrfd as [-> ->].
  cbv [result_equiv Value_equiv vmap]. repeat split; field.
Qed.

(** ** The further properties at concrete inputs *)

Lemma positive_half_inch : 0 < in_inch (inches 0.5).
Proof. vm_compute. reflexivity. Defined.

Lemma positive_58_ksi : 0 < in_ksi (ksis 58).
Proof. vm_compute. reflexivity. Defined.

(** A 0.75 in bolt 1.25 in from the edge: the clear distance, 0.8125 in,
    is below 1.5 in and tearout governs. *)
Lemma tearout_governs_iff_witness :
  exists tearout1 tearout2 bearing1 bearing2 : Q,
    tearout_strength_bolts "ASD" (inches 0.75) (inches 1.25) (inches 3)
      (inches 0.5) (ksis 58) (inches 0.5) (ksis 58)
    = Ok (tearout1, tearout2)
    /\ bearing_strength_bolts "ASD" (inches 0.75)
         (inches 0.5) (ksis 58) (inches 0.5) (ksis 58)
       = Ok (bearing1, bearing2)
    /\ tearout1 <= bearing1 /\ ~ tearout2 <= bearing2.
Proof.
  destruct (tearout_governs_iff "ASD" (inches 0.75) (inches 1.25) (inches 3)
              (inches 0.5) (ksis 58) (inches 0.5) (ksis 58)
              (or_introl eq_refl)
              eq_refl eq_refl eq_refl eq_refl eq_refl eq_refl eq_refl
              positive_half_inch positive_58_ksi
              positive_half_inch positive_58_ksi)
    as (x1 & x2 & y1 & y2 & Hx & Hy & H1 & H2).
  exists x1, x2, y1, y2. split; [exact Hx |]. split; [exact Hy |].
  split.
  - apply H1. vm_compute. discriminate.
  - intros H. apply H2 in H. vm_compute in H. apply H. reflexivity.
Defined.

Lemma nonnegative_half_inch : 0 <= in_inch (inches 0.5).
Proof. vm_compute. discriminate. Defined.

Lemma nonnegative_58_ksi : 0 <= in_ksi (ksis 58).
Proof. vm_compute. discriminate. Defined.

(** A 0.75 in bolt 0.4 in from the edge of part 1. *)
Lemma tearout_short_edge_witness :
  exists tearout1 tearout2 : Q,
    tearout_strength_bolts "LRFD" (inches 0.75) (inches 0.4) (inches 3)
      (inches 0.5) (ksis 58) (inches 0.5) (ksis 58)
    = Ok (tearout1, tearout2)
    /\ tearout1 <= 0.
Proof.
  destruct (tearout_short_edge "LRFD" (inches 0.75) (inches 0.4) (inches 3)
              (inches 0.5) (ksis 58) (inches 0.5) (ksis 58)
              (or_intror eq_refl)
              eq_refl eq_refl eq_refl eq_refl eq_refl eq_refl eq_refl
              nonnegative_half_inch nonnegative_58_ksi
              nonnegative_half_inch nonnegative_58_ksi)
    as (x1 & x2 & Hx & H1 & _).
  exists x1, x2. split; [exact Hx |].
  apply H1. vm_compute. discriminate.
Defined.

Lemma zero_is_zero : 0 == 0.
Proof. reflexivity. Defined.

(** A weld of size zero, and a part of zero ultimate stress under an
    invalid method. *)
Lemma weld_rupture_zero_division_witness :
  weld_rupture_strength "LRFD" 0 (inches 6) 1
    (inches 10) (ksis 58) (inches 10) (ksis 58) = Raise ZeroDivisionError
  /\ weld_rupture_strength "XYZ" 4 (inches 6) 2
       (inches 10) (ksis 58) (inches 10) (ksis 0) = Raise ZeroDivisionError.
Proof.
  split.
  - exact (weld_rupture_zero_division "LRFD" 0 (inches 6) 1
             (inches 10) (ksis 58) (inches 10) (ksis 58)
             eq_refl eq_refl eq_refl eq_refl eq_refl
             (or_introl eq_refl) (or_introl zero_is_zero)).
  - apply (weld_rupture_zero_division "XYZ" 4 (inches 6) 2
             (inches 10) (ksis 58) (inches 10) (ksis 0)
             eq_refl eq_refl eq_refl eq_refl eq_refl
             (or_intror eq_refl)).
    right; right. vm_compute. reflexivity.
Defined.

Lemma positive_4 : 0 < 4.
Proof. reflexivity. Defined.

Lemma nonnegative_6_inch : 0 <= in_inch (inches 6).
Proof. vm_compute. discriminate. Defined.

(** A 4/16 in weld on both sides of a 0.1 in plate. *)
Lemma weld_rupture_at_most_material_witness :
  exists rupture material : Q,
    weld_rupture_strength "LRFD" 4 (inches 6) 2
      (inches 0.1) (ksis 58) (inches 10) (ksis 58) = Ok rupture
    /\ weld_material_strength "LRFD" 4 (inches 6) 2 = Ok material
    /\ rupture <= material.
Proof.
  exact (weld_rupture_at_most_material "LRFD" 4 (inches 6) 2
           (inches 0.1) (ksis 58) (inches 10) (ksis 58)
           (or_intror eq_refl)
           eq_refl eq_refl eq_refl eq_refl eq_refl
           (or_intror eq_refl) positive_4 nonnegative_6_inch
           nonzero_58_ksi nonzero_58_ksi).
Defined.

(** The same weld: 0.6 * 58 * 0.1 = 3.48 is below the weld's 14.847. *)
Lemma weld_rupture_base_metal_witness :
  exists rupture : Q,
    weld_rupture_strength "LRFD" 4 (inches 6) 2
      (inches 0.1) (ksis 58) (inches 10) (ksis 58) = Ok rupture
    /\ rupture == 0.75 * (math_sqrt2 / 2 / 0.707 * (6 * 3.48)).
Proof.
  destruct (weld_rupture_base_metal "LRFD" 4 (inches 6) 2
              (inches 0.1) (ksis 58) (inches 10) (ksis 58)
              (or_intror eq_refl)
              eq_refl eq_refl eq_refl eq_refl eq_refl
              (or_intror eq_refl) positive_4
              nonzero_58_ksi nonzero_58_ksi)
    as (r & Hr & Er).
  - left. vm_compute. reflexivity.
  - exists r. split; [exact Hr |].
    rewrite Er. vm_compute. reflexivity.
Defined.

Lemma min_weld_size_monotone_witness :
  exists size size' : Q,
    min_weld_size (inches 0.2) (inches 1) = Ok (Some size)
    /\ min_weld_size (millimeters 10) (inches 1) = Ok (Some size')
    /\ size <= size'.
Proof.
  apply (min_weld_size_monotone (inches 0.2) (inches 1)
           (millimeters 10) (inches 1) eq_refl eq_refl eq_refl eq_refl).
  - vm_compute. discriminate.
  - vm_compute. discriminate.
Defined.

Lemma part1_independent_of_part2_witness :
  rmap first_part
    (call "ASD" (BearingStrengthBolts (inches 0.75) (inches 0.5) (ksis 58)
                                     (inches 0.375) (ksis 58)))
  = rmap first_part
      (call "ASD" (BearingStrengthBolts (inches 0.75) (inches 0.5) (ksis 58)
                                       (millimeters 3) (megapascals 400))).
Proof.
  apply (part1_independent_of_part2 "ASD" _ _
           (agree_bearing (inches 0.75) (inches 0.5) (ksis 58)
              (inches 0.375) (ksis 58) (millimeters 3) (megapascals 400)));
    reflexivity.
Defined.

Lemma tensile_rupture_per_bolt_witness :
  exists a1 a2 b1 b2 : Q,
    connected_elem_tensile_rupture_str "ASD" (inches 0.75) 2 0.9
      (inches 0.5) (inches 6) (ksis 58) (inches 0.5) (inches 12) (ksis 58)
    = Ok (a1, a2)
    /\ connected_elem_tensile_rupture_str "ASD" (inches 0.75) 3 0.9
      (inches 0.5) (inches 6) (ksis 58) (inches 0.5) (inches 12) (ksis 58)
    = Ok (b1, b2)
    /\ b1 < a1.
Proof.
  destruct (tensile_rupture_per_bolt "ASD" (inches 0.75) 2 0.9
              (inches 0.5) (inches 6) (ksis 58)
              (inches 0.5) (inches 12) (ksis 58)
              (or_introl eq_refl)
              eq_refl eq_refl eq_refl eq_refl eq_refl eq_refl eq_refl
              eq_refl)
    as (g1 & g2 & a1 & a2 & b1 & b2 & _ & Ha & Hb & _ & _ & E1 & _).
  exists a1, a2, b1, b2. split; [exact Ha |]. split; [exact Hb |].
  rewrite E1.
  assert (P : 0 < in_ksi (ksis 58) * in_inch (inches 0.5)
                  * (in_inch (inches 0.75) + 0.063) * 0.9 / 2.00)
    by (vm_compute; reflexivity).
  change (("ASD" =? "ASD")%string) with true. cbv iota.
  lra.
Defined.

(** ** A quantity of the wrong dimension *)

(** X15.  In the nine functions of the table, in [weld_rupture_strength]
    and in [min_weld_size], a quantity whose dimension is not the one its
    parameter expects makes the call raise pint's [DimensionalityError],
    whatever the other arguments are: the conversions come before the test
    of the design method, before the reading of [t1_min] and before every
    division. *)
Theorem wrong_dimension_raises_first :
  (forall (design_method : string) (c : Call),
      well_dimensioned c = false ->
      call design_method c = Raise DimensionalityError)
  /\ (forall (design_method : string) (weld_size : Q)
             (weld_length : Quantity) (weld_sides : Z)
             (part1_t part1_ult part2_t part2_ult : Quantity),
      is_length weld_length && is_length part1_t && is_stress part1_ult
      && is_length part2_t && is_stress part2_ult = false ->
      weld_rupture_strength design_method weld_size weld_length weld_sides
        part1_t part1_ult part2_t part2_ult = Raise DimensionalityError)
  /\ (forall part1_t part2_t : Quantity,
      is_length part1_t && is_length part2_t = false ->
      min_weld_size part1_t part2_t = Raise DimensionalityError).
Proof.
  split; [exact call_dimension_error |].
  split; [intros; now apply weld_rupture_dimension_error |].
  intros; now apply min_weld_size_dimension_error.
Qed.

(** A stress passed as a thickness, with an invalid method, three weld
    sides and a zero stress besides. *)
Lemma wrong_dimension_raises_first_witness :
  weld_rupture_strength "XYZ" 4 (inches 6) 3
    (ksis 10) (ksis 0) (inches 10) (ksis 58) = Raise DimensionalityError
  /\ call "XYZ" (BearingStrengthBolts (inches 0.75) (inches 0.5) (inches 58)
                                      (inches 0.375) (ksis 58))
     = Raise DimensionalityError.
Proof.
  destruct wrong_dimension_raises_first as (A & B & _).
  split; [apply B | apply A]; reflexivity.
Defined.
